(** * TimeScope: the background time tracker (src/background.ts)

    A shallow embedding of the [TimeTracker] class of the TimeScope browser
    extension and of the message handlers around it.

    The repository holds two drafts of background.ts.  The first one keeps a
    ring of debug log entries and commits a session of at least 1000 ms; the
    second has no debug log and commits a session of at least 2000 ms.  Apart
    from that their code is the same, so one embedding serves both: it is
    parametrised by a [Draft].

    Conventions of the model.
    - A method is a computation in the monad [JS]: it threads the [World]
      (the tracker object, the JS heap of log arrays, and the browser) and
      completes normally or abruptly (a thrown exception, or a rejected
      promise at an [await]).
    - A handler runs to completion: no second handler is interleaved at its
      await points.  A promise that the caller does not await
      ([addTimeToStorage], [handleTabChange] from a listener) is run at the
      call and its completion is dropped.  A statement about one call holds
      of the code when nothing else runs before the call has settled; a
      statement about a sequence of events that depends on it says so
      ([arrives_settled]).
    - [Date.now()] reads the clock of the browser.  The clock stands still
      during synchronous code and advances by [tabsLatency] while a call into
      chrome.tabs is awaited.
    - A handler that a [.catch] leaves on a promise does not run inside the
      call: it is queued ([reactions]) and runs when the queue is settled
      ([settle]), which is before the next event arrives.
    - Durations and timestamps are integers ([Z]).  A [DailyData] object of
      the store is a finite map from the domains it holds as own properties
      to their times.  What the engine does with a domain that names a
      member of Object.prototype is followed apart, on plain objects
      ([accumulate]); the methods agree with it on every other name.
    - The URL parser ([new URL]) belongs to the host: the methods take it as
      a parameter, and the statements hold for every parser. *)

From Stdlib Require Import Ascii.
From stdpp Require Import gmap strings list fin_maps sorting pretty.

Local Open Scope Z_scope.

(** ** Data model (src/types.ts) *)

Inductive Draft := Instrumented | Minimal.

Record DomainData := { domain : string; timeSpent : Z }.

#[global] Instance DomainData_eq_dec : EqDecision DomainData.
Proof. solve_decision. Defined.

(** The values that travel as the [data] of a log entry or to the console. *)
#[warnings="-register-all"]
Inductive JsValue :=
| JUndefined
| JNull
| JBool (b : bool)
| JNumber (n : Z)
| JString (s : string)
| JObject (fields : list (string * JsValue)).

Inductive LogType := tab_change | focus_change | session_record | error | info.

Record DebugLogEntry := {
  timestamp : Z;
  message : string;
  type : LogType;
  data : JsValue }.

(** [DailyData]: domain -> milliseconds of the day;
    [StorageData]: day key -> [DailyData]. *)
Abbreviation DailyData := (gmap string Z).
Abbreviation StorageData := (gmap string (gmap string Z)).

(** The anonymous record type of the field [currentTab]; its [domain] field
    is [tabDomain] here, [domain] being taken by [DomainData]. *)
Record TrackedTab := { tabId : Z; tabDomain : string; startTime : Z }.

#[global] Instance TrackedTab_eq_dec : EqDecision TrackedTab.
Proof. solve_decision. Defined.

(** An array object lives in the heap; a field holds a reference to it. *)
Definition ref := positive.

Record TimeTracker := {
  currentTab : option TrackedTab;
  isWindowFocused : bool;
  debugLogs : ref;
  popupConnected : bool }.

Definition MAX_DEBUG_LOGS : nat := 100.

(** The commit threshold: the literal of [recordCurrentSession] in each draft. *)
Definition MIN_DURATION_MS (d : Draft) : Z :=
  match d with Instrumented => 1000 | Minimal => 2000 end.

(** ** The browser *)

(** What the code reads of a chrome.tabs.Tab. *)
Record Tab := {
  tab_id : Z;
  tab_windowId : Z;
  tab_active : bool;
  tab_url : option string }.

(** What the code reads of a URL object. *)
Record URL := { protocol : string; hostname : string }.

(** The local calendar fields of [new Date()]. *)
Record Date := { getFullYear : Z; getMonth : Z; getDate : Z }.

Inductive Messaging := Delivering | NoReceiver | ContextInvalidated.

Inductive ConsoleLevel := LevelLog | LevelError.
Record ConsoleLine := { level : ConsoleLevel; text : string; arg : JsValue }.

(** The part of the browser that the tracker only reads. *)
Record Browser := {
  localDate : Date;
  openTabs : list Tab;
  currentWindowId : Z;
  tabsLatency : Z;
  storageGetFault : option string;
  storageSetFault : option string;
  messaging : Messaging }.

(** A reaction registered on a promise and not run yet.  The only one in
    background.ts is the handler that [broadcastLogEntry] passes to [.catch]:
    [() => { this.popupConnected = false }]. *)
Inductive Reaction := ResetPopupConnected.

Record World := {
  self : TimeTracker;
  arrays : gmap ref (list DebugLogEntry);
  browser : Browser;
  clock : Z;
  local : gmap string (gmap string Z);
  console : list ConsoleLine;
  outbox : list DebugLogEntry;
  reactions : list Reaction }.

(** Modelled from the spec: the "no window" sentinel of the windows API
    (chrome.windows.WINDOW_ID_NONE), which this repository does not declare;
    Chrome defines it as -1. *)
Definition WINDOW_ID_NONE : Z := -1.

(** Field updates. *)
Definition with_self (t : TimeTracker) (w : World) : World :=
  {| self := t; arrays := arrays w; browser := browser w; clock := clock w;
     local := local w; console := console w; outbox := outbox w;
     reactions := reactions w |}.
Definition with_arrays (h : gmap ref (list DebugLogEntry)) (w : World) : World :=
  {| self := self w; arrays := h; browser := browser w; clock := clock w;
     local := local w; console := console w; outbox := outbox w;
     reactions := reactions w |}.
Definition with_clock (t : Z) (w : World) : World :=
  {| self := self w; arrays := arrays w; browser := browser w; clock := t;
     local := local w; console := console w; outbox := outbox w;
     reactions := reactions w |}.
Definition with_local (s : gmap string (gmap string Z)) (w : World) : World :=
  {| self := self w; arrays := arrays w; browser := browser w; clock := clock w;
     local := s; console := console w; outbox := outbox w;
     reactions := reactions w |}.
Definition with_console (c : list ConsoleLine) (w : World) : World :=
  {| self := self w; arrays := arrays w; browser := browser w; clock := clock w;
     local := local w; console := c; outbox := outbox w; reactions := reactions w |}.
Definition with_outbox (o : list DebugLogEntry) (w : World) : World :=
  {| self := self w; arrays := arrays w; browser := browser w; clock := clock w;
     local := local w; console := console w; outbox := o; reactions := reactions w |}.
Definition with_reactions (r : list Reaction) (w : World) : World :=
  {| self := self w; arrays := arrays w; browser := browser w; clock := clock w;
     local := local w; console := console w; outbox := outbox w; reactions := r |}.

Definition with_currentTab (c : option TrackedTab) (t : TimeTracker) : TimeTracker :=
  {| currentTab := c; isWindowFocused := isWindowFocused t;
     debugLogs := debugLogs t; popupConnected := popupConnected t |}.
Definition with_isWindowFocused (b : bool) (t : TimeTracker) : TimeTracker :=
  {| currentTab := currentTab t; isWindowFocused := b;
     debugLogs := debugLogs t; popupConnected := popupConnected t |}.
Definition with_debugLogs (r : ref) (t : TimeTracker) : TimeTracker :=
  {| currentTab := currentTab t; isWindowFocused := isWindowFocused t;
     debugLogs := r; popupConnected := popupConnected t |}.
Definition with_popupConnected (b : bool) (t : TimeTracker) : TimeTracker :=
  {| currentTab := currentTab t; isWindowFocused := isWindowFocused t;
     debugLogs := debugLogs t; popupConnected := b |}.

(** ** The monad of method bodies *)

(** How a call ends: with a value, or with a thrown value.  The code only
    ever reads the message of what it catches. *)
Inductive Completion (A : Type) :=
| Normal (a : A)
| Abrupt (reason : string).
Arguments Normal {A} a.
Arguments Abrupt {A} reason.

Definition JS (A : Type) : Type := World → Completion A * World.

Definition JS_ret {A} (a : A) : JS A := λ w, (Normal a, w).

Definition JS_bind {A B} (k : A → JS B) (m : JS A) : JS B :=
  λ w, match m w with
       | (Normal a, w') => k a w'
       | (Abrupt e, w') => (Abrupt e, w')
       end.

#[global] Instance JS_mret : MRet JS := @JS_ret.
#[global] Instance JS_mbind : MBind JS := @JS_bind.

Definition throw {A} (e : string) : JS A := λ w, (Abrupt e, w).

(** [try { body } catch (error) { handler }] *)
Definition try_catch {A} (body : JS A) (handler : string → JS A) : JS A :=
  λ w, match body w with
       | (Normal a, w') => (Normal a, w')
       | (Abrupt e, w') => handler e w'
       end.

(** A call whose promise is dropped: neither its value nor its rejection
    reaches the caller.  The body is run at the call, up to its end: the
    world after it is the one in which the call has settled, which is the
    world of the code when nothing else ran between the call and its last
    await.  A statement about several events holds of the code for the
    schedules in which that is so. *)
Definition detached {A} (m : JS A) : JS unit :=
  λ w, (Normal tt, (m w).2).

Definition gets {A} (f : World → A) : JS A := λ w, (Normal (f w), w).
Definition modify (f : World → World) : JS unit := λ w, (Normal tt, f w).

Definition exec {A} (m : JS A) (w : World) : World := (m w).2.
Definition completion {A} (m : JS A) (w : World) : Completion A := (m w).1.

(** ** JavaScript values and strings *)

(** ToBoolean, on the values of the model. *)
Definition truthy (v : JsValue) : bool :=
  match v with
  | JUndefined | JNull => false
  | JBool b => b
  | JNumber n => negb (n =? 0)
  | JString s => negb (String.eqb s "")
  | JObject _ => true
  end.

(** ToBoolean of a [string | null] or [string | undefined]: the string when
    the value is truthy, that is, present and not empty. *)
Definition truthy_string (o : option string) : option string :=
  match o with
  | Some s => if String.eqb s "" then None else Some s
  | None => None
  end.

(** [o || fallback] on such a value. *)
Definition string_or (o : option string) (fallback : string) : string :=
  match o with
  | Some s => if String.eqb s "" then fallback else s
  | None => fallback
  end.

(** [v || 0] on a [number | undefined]. *)
Definition number_or_zero (o : option Z) : Z :=
  match o with
  | Some v => if v =? 0 then 0 else v
  | None => 0
  end.

Definition JString_or_undefined (o : option string) : JsValue :=
  match o with Some s => JString s | None => JUndefined end.

(** [String(n)] for an integer [n]. *)
Definition Number_toString (n : Z) : string := pretty n.

(** The first [n] characters of [padString] repeated; [cur] is what is left
    of the copy being read. *)
Fixpoint padding (n : nat) (padString cur : string) : string :=
  match n with
  | O => ""
  | S n' =>
      match cur with
      | String c rest => String c (padding n' padString rest)
      | EmptyString =>
          match padString with
          | String c rest => String c (padding n' padString rest)
          | EmptyString => ""
          end
      end
  end.

(** [s.padStart(targetLength, padString)] *)
Definition padStart (targetLength : nat) (padString s : string) : string :=
  let len := String.length s in
  if (targetLength <=? len)%nat then s
  else padding (targetLength - len) padString padString +:+ s.

Definition upper_char (c : Ascii.ascii) : Ascii.ascii :=
  let n := Ascii.nat_of_ascii c in
  if ((97 <=? n) && (n <=? 122))%nat then Ascii.ascii_of_nat (n - 32) else c.

(** [s.toUpperCase()], on ASCII. *)
Fixpoint toUpperCase (s : string) : string :=
  match s with
  | EmptyString => EmptyString
  | String c rest => String (upper_char c) (toUpperCase rest)
  end.

Definition LogType_string (t : LogType) : string :=
  match t with
  | tab_change => "tab_change"
  | focus_change => "focus_change"
  | session_record => "session_record"
  | error => "error"
  | info => "info"
  end.

(** ** Calls into the host *)

Definition Date_now : JS Z := gets clock.
Definition Date_new : JS Date := gets (λ w, localDate (browser w)).

(** [await p], for a call [p] into chrome.tabs: the handler resumes
    [tabsLatency] later, with the value or with the rejection thrown. *)
Definition await_tabs {A} (p : JS A) : JS A :=
  λ w, let '(c, w') := p w in (c, with_clock (clock w' + tabsLatency (browser w')) w').

Definition console_log (msg : string) (v : JsValue) : JS unit :=
  modify (λ w, with_console ({| level := LevelLog; text := msg; arg := v |} :: console w) w).

Definition console_error (msg : string) (v : JsValue) : JS unit :=
  modify (λ w, with_console ({| level := LevelError; text := msg; arg := v |} :: console w) w).

(** [chrome.tabs.get(tabId)]: rejects when no tab has that id. *)
Definition chrome_tabs_get (id : Z) : JS Tab :=
  λ w, match List.find (λ t, tab_id t =? id) (openTabs (browser w)) with
       | Some t => (Normal t, w)
       | None => (Abrupt ("No tab with id: " +:+ Number_toString id +:+ "."), w)
       end.

(** [chrome.tabs.query({ active: true, windowId })] *)
Definition chrome_tabs_query_active (windowId : Z) : JS (list Tab) :=
  gets (λ w, List.filter (λ t, tab_active t && (tab_windowId t =? windowId))
                         (openTabs (browser w))).

(** [chrome.tabs.query({ active: true, currentWindow: true })] *)
Definition chrome_tabs_query_current : JS (list Tab) :=
  λ w, chrome_tabs_query_active (currentWindowId (browser w)) w.

(** [chrome.storage.local.get(keys)]: the stored items under [keys]. *)
Definition chrome_storage_local_get (keys : list string) : JS (gmap string (gmap string Z)) :=
  λ w, match storageGetFault (browser w) with
       | Some e => (Abrupt e, w)
       | None => (Normal (filter (λ kv, kv.1 ∈ keys) (local w)), w)
       end.

(** [chrome.storage.local.set(items)]: [items] are written over the store. *)
Definition chrome_storage_local_set (items : gmap string (gmap string Z)) : JS unit :=
  λ w, match storageSetFault (browser w) with
       | Some e => (Abrupt e, w)
       | None => (Normal tt, with_local (items ∪ local w) w)
       end.

(** How the promise of [chrome.runtime.sendMessage] settles. *)
Inductive Settled := Fulfilled | Rejected (reason : string).

(** [chrome.runtime.sendMessage({ action: 'newDebugLog', logEntry })] *)
Definition chrome_runtime_sendMessage (logEntry : DebugLogEntry) : JS Settled :=
  λ w, match messaging (browser w) with
       | Delivering => (Normal Fulfilled, with_outbox (logEntry :: outbox w) w)
       | NoReceiver => (Normal (Rejected "Could not establish connection. Receiving end does not exist."), w)
       | ContextInvalidated => (Abrupt "Extension context invalidated.", w)
       end.

(** [p.catch(onRejected)]: nothing runs at the call.  When [p] is rejected
    the reaction is queued, to run once the synchronous code of the caller is
    over. *)
Definition promise_catch (p : Settled) (onRejected : Reaction) : JS unit :=
  match p with
  | Fulfilled => mret tt
  | Rejected _ => modify (λ w, with_reactions (reactions w ++ [onRejected]) w)
  end.

(** ** The heap of log arrays *)

Definition array_at (r : ref) (w : World) : list DebugLogEntry :=
  default [] (arrays w !! r).

(** [a.unshift(x)]: in place. *)
Definition Array_unshift (r : ref) (x : DebugLogEntry) : JS unit :=
  modify (λ w, with_arrays (<[r := x :: array_at r w]> (arrays w)) w).

Definition Array_length (r : ref) : JS nat := gets (λ w, length (array_at r w)).

(** A new array object holding [l]. *)
Definition Array_new (l : list DebugLogEntry) : JS ref :=
  λ w, let r := fresh (dom (arrays w)) in
       (Normal r, with_arrays (<[r := l]> (arrays w)) w).

(** [a.slice(0, stop)]: a new array. *)
Definition Array_slice0 (r : ref) (stop : nat) : JS ref :=
  l ← gets (array_at r); Array_new (take stop l).

(** [[...a]]: a new array with the elements of [a]. *)
Definition Array_spread (r : ref) : JS ref :=
  l ← gets (array_at r); Array_new l.

(** ** The class TimeTracker *)

Record TabChangeInfo := { status : option string }.

(** [l.sort((a, b) => b.timeSpent - a.timeSpent)]: the comparator, the order
    it asks for ([a] may stand before [b] when the comparator is not positive
    on them), and a sort for that order.  The order in which the host leaves
    entries of equal time is not modelled. *)
Definition compareFn (a b : DomainData) : Z := timeSpent b - timeSpent a.
Definition sorts_before (a b : DomainData) : Prop := compareFn a b ≤ 0.

#[global] Instance sorts_before_dec : RelDecision sorts_before.
Proof. intros a b. unfold sorts_before. apply _. Defined.

Definition Array_sort (l : list DomainData) : list DomainData :=
  merge_sort sorts_before l.

(** [Object.entries(dailyData).map(([domain, timeSpent]) => ({ domain, timeSpent }))] *)
Definition entries (dailyData : gmap string Z) : list DomainData :=
  (λ kv, {| domain := kv.1; timeSpent := kv.2 |}) <$> map_to_list dailyData.

Section TimeTracker.

(** Which draft of background.ts, and the URL parser of the host:
    [new URL(url)] returns the URL object or throws. *)
Variable draft : Draft.
Variable URL_new : string → Completion URL.

Definition setCurrentTab (c : option TrackedTab) : JS unit :=
  modify (λ w, with_self (with_currentTab c (self w)) w).
Definition setWindowFocused (b : bool) : JS unit :=
  modify (λ w, with_self (with_isWindowFocused b (self w)) w).
Definition setPopupConnectedField (b : bool) : JS unit :=
  modify (λ w, with_self (with_popupConnected b (self w)) w).

Definition broadcastLogEntry (logEntry : DebugLogEntry) : JS unit :=
  connected ← gets (λ w, popupConnected (self w));
  if connected : bool then
    try_catch
      (p ← chrome_runtime_sendMessage logEntry;
       promise_catch p ResetPopupConnected)
      (λ _, setPopupConnectedField false)
  else mret tt.

Definition addDebugLog (ty : LogType) (msg : string) (dat : JsValue) : JS unit :=
  now ← Date_now;
  let logEntry := {| timestamp := now; message := msg; type := ty; data := dat |} in
  logs ← gets (λ w, debugLogs (self w));
  Array_unshift logs logEntry;;
  len ← Array_length logs;
  (if decide (MAX_DEBUG_LOGS < len)%nat
   then kept ← Array_slice0 logs MAX_DEBUG_LOGS;
        modify (λ w, with_self (with_debugLogs kept (self w)) w)
   else mret tt);;
  console_log ("[TimeScope Debug] " +:+ toUpperCase (LogType_string ty) +:+ ": " +:+ msg)
              (if truthy dat then dat else JString "");;
  broadcastLogEntry logEntry.

(** A call of [addDebugLog] in the first draft; the second draft has no
    statement at that place.  [dat] is the object literal of the call,
    evaluated at the call. *)
Definition debug (ty : LogType) (msg : string) (dat : World → JsValue) : JS unit :=
  match draft with
  | Instrumented => λ w, addDebugLog ty msg (dat w) w
  | Minimal => mret tt
  end.

Definition getDebugLogs : JS ref :=
  logs ← gets (λ w, debugLogs (self w));
  Array_spread logs.

Definition setPopupConnected (connected : bool) : JS unit :=
  setPopupConnectedField connected;;
  now ← Date_now;
  if connected
  then addDebugLog info "Debug popup connected" (JObject [("timestamp", JNumber now)])
  else addDebugLog info "Debug popup disconnected" (JObject [("timestamp", JNumber now)]).

Definition extractDomain (url : string) : option string :=
  match URL_new url with
  | Normal urlObj =>
      if String.eqb (protocol urlObj) "chrome:" || String.eqb (protocol urlObj) "chrome-extension:"
      then None
      else Some (hostname urlObj)
  | Abrupt _ => None
  end.

Definition getTodayKey : JS string :=
  now ← Date_new;
  mret (Number_toString (getFullYear now) +:+ "-" +:+
        padStart 2 "0" (Number_toString (getMonth now + 1)) +:+ "-" +:+
        padStart 2 "0" (Number_toString (getDate now))).

(** The day object is the finite map of its own properties here, and
    [dailyData[domain]] the lookup in it: that is the code for a [domain]
    that names no member of Object.prototype.  The read on every name is
    [accumulate], further down. *)
Definition addTimeToStorage (dom : string) (spent : Z) : JS unit :=
  today ← getTodayKey;
  try_catch
    (result ← chrome_storage_local_get [today];
     let dailyData := default ∅ (result !! today) in
     let dailyData := <[dom := number_or_zero (dailyData !! dom) + spent]> dailyData in
     chrome_storage_local_set {[today := dailyData]})
    (λ e, console_error "Error saving to storage:" (JString e)).

Definition getTodayData : JS (list DomainData) :=
  today ← getTodayKey;
  try_catch
    (result ← chrome_storage_local_get [today];
     let dailyData := default ∅ (result !! today) in
     mret (Array_sort (entries dailyData)))
    (λ e, console_error "Error loading today data:" (JString e);; mret []).

Definition currentTab_or_none (w : World) : JsValue :=
  JString (string_or (tabDomain <$> currentTab (self w)) "none").

Definition recordCurrentSession : JS unit :=
  cur ← gets (λ w, currentTab (self w));
  match cur with
  | None =>
      debug session_record "No current tab to record"
        (λ w, JObject [("windowFocused", JBool (isWindowFocused (self w)))])
  | Some tracked =>
      now ← Date_now;
      let spent := now - startTime tracked in
      debug session_record "Recording session"
        (λ w, JObject [("domain", JString (tabDomain tracked));
                       ("timeSpent", JNumber spent);
                       ("startTime", JNumber (startTime tracked));
                       ("windowFocused", JBool (isWindowFocused (self w)));
                       ("willRecord", JBool (MIN_DURATION_MS draft <=? spent))]);;
      if MIN_DURATION_MS draft <=? spent
      then detached (addTimeToStorage (tabDomain tracked) spent)
      else mret tt
  end.

Definition handleTabChange (id : Z) : JS unit :=
  focused ← gets (λ w, isWindowFocused (self w));
  if negb focused then
    debug tab_change "Tab change ignored - window not focused"
      (λ w, JObject [("tabId", JNumber id);
                     ("windowFocused", JBool (isWindowFocused (self w)))])
  else
    recordCurrentSession;;
    try_catch
      (tab ← await_tabs (chrome_tabs_get id);
       match truthy_string (tab_url tab) with
       | Some url =>
           match truthy_string (extractDomain url) with
           | Some dom =>
               now ← Date_now;
               setCurrentTab (Some {| tabId := id; tabDomain := dom; startTime := now |});;
               debug tab_change "Started tracking new tab"
                 (λ w, JObject [("tabId", JNumber id);
                                ("domain", JString dom);
                                ("url", JString url);
                                ("windowFocused", JBool (isWindowFocused (self w)))])
           | None =>
               setCurrentTab None;;
               debug tab_change "Tab change - invalid domain, stopped tracking"
                 (λ _, JObject [("tabId", JNumber id); ("url", JString url)])
           end
       | None => mret tt
       end)
      (λ e,
         debug error "Error getting tab info during tab change"
           (λ _, JObject [("tabId", JNumber id); ("error", JString e)]);;
         console_error "Error getting tab info:" (JString e);;
         setCurrentTab None).

Definition initializeCurrentTab : JS unit :=
  try_catch
    (tabs ← await_tabs chrome_tabs_query_current;
     match tabs with
     | tab :: _ =>
         match (if tab_id tab =? 0 then None else truthy_string (tab_url tab)) with
         | Some url =>
             match truthy_string (extractDomain url) with
             | Some dom =>
                 now ← Date_now;
                 setCurrentTab (Some {| tabId := tab_id tab; tabDomain := dom;
                                        startTime := now |});;
                 debug info "Initial tab set"
                   (λ w, JObject [("tabId", JNumber (tab_id tab));
                                  ("domain", JString dom);
                                  ("url", JString url);
                                  ("windowFocused", JBool (isWindowFocused (self w)))])
             | None =>
                 debug info "Initial tab skipped (invalid domain)"
                   (λ _, JObject [("tabId", JNumber (tab_id tab)); ("url", JString url)])
             end
         | None => debug info "No initial tab found" (λ _, JObject [("tab", JObject [])])
         end
     | [] => debug info "No initial tab found" (λ _, JObject [("tab", JUndefined)])
     end)
    (λ e,
       debug error "Error initializing current tab" (λ _, JObject [("error", JString e)]);;
       console_error "Error initializing current tab:" (JString e)).

(** [new TimeTracker()]: the field initialisers, then the constructor.  The
    query of [initializeCurrentTab] is awaited, so the rest of that method
    runs after the constructor has logged. *)
Definition TimeTracker_new : JS unit :=
  logs ← Array_new [];
  modify (with_self {| currentTab := None; isWindowFocused := true;
                       debugLogs := logs; popupConnected := false |});;
  debug info "TimeTracker initialized"
    (λ w, JObject [("windowFocused", JBool (isWindowFocused (self w)));
                   ("timestamp", JNumber (clock w))]);;
  initializeCurrentTab.

(** *** The listeners of [setupEventListeners] *)

(** chrome.tabs.onActivated *)
Definition onActivated (activeTabId activeWindowId : Z) : JS unit :=
  debug tab_change "Tab activated"
    (λ w, JObject [("tabId", JNumber activeTabId);
                   ("windowId", JNumber activeWindowId);
                   ("windowFocused", JBool (isWindowFocused (self w)));
                   ("currentTab", currentTab_or_none w)]);;
  detached (handleTabChange activeTabId).

(** chrome.tabs.onUpdated *)
Definition onUpdated (id : Z) (changeInfo : TabChangeInfo) (tab : Tab) : JS unit :=
  focused ← gets (λ w, isWindowFocused (self w));
  if bool_decide (status changeInfo = Some "complete") && tab_active tab && focused then
    debug tab_change "Tab URL updated"
      (λ w, JObject [("tabId", JNumber id);
                     ("url", JString_or_undefined (tab_url tab));
                     ("windowFocused", JBool (isWindowFocused (self w)));
                     ("changeInfo", JObject [("status", JString_or_undefined (status changeInfo))]);
                     ("currentTab", currentTab_or_none w)]);;
    detached (handleTabChange id)
  else mret tt.

(** chrome.windows.onFocusChanged *)
Definition onFocusChanged (windowId : Z) : JS unit :=
  if windowId =? WINDOW_ID_NONE then
    debug focus_change "Browser lost focus"
      (λ w, JObject [("previousWindowFocused", JBool (isWindowFocused (self w)));
                     ("currentTab", currentTab_or_none w);
                     ("sessionTime",
                      JNumber (match currentTab (self w) with
                               | Some tracked => clock w - startTime tracked
                               | None => 0
                               end))]);;
    setWindowFocused false;;
    recordCurrentSession;;
    setCurrentTab None
  else
    previousFocusState ← gets (λ w, isWindowFocused (self w));
    setWindowFocused true;;
    debug focus_change "Browser gained focus"
      (λ w, JObject [("windowId", JNumber windowId);
                     ("previousWindowFocused", JBool previousFocusState);
                     ("currentTab", currentTab_or_none w)]);;
    tabs ← await_tabs (chrome_tabs_query_active windowId);
    match tabs with
    | tab :: _ =>
        debug focus_change "Active tab found after focus gain"
          (λ _, JObject [("tabId", JNumber (tab_id tab));
                         ("url", JString_or_undefined (tab_url tab));
                         ("domain", match extractDomain (string_or (tab_url tab) "") with
                                    | Some dom => JString dom
                                    | None => JNull
                                    end)]);;
        detached (handleTabChange (tab_id tab))
    | [] =>
        debug focus_change "No active tab found after focus gain"
          (λ _, JObject [("windowId", JNumber windowId)])
    end.

(** *** chrome.runtime.onMessage *)

Inductive Response :=
| TodayData (l : list DomainData)
| DebugLogs (r : ref)
| Success
| NoResponse.

Definition onMessage (action : string) : JS Response :=
  if String.eqb action "getTodayData" then
    l ← getTodayData; mret (TodayData l)
  else
    match draft with
    | Instrumented =>
        if String.eqb action "getDebugLogs" then
          r ← getDebugLogs; mret (DebugLogs r)
        else if String.eqb action "popupConnected" then
          setPopupConnected true;; mret Success
        else if String.eqb action "popupDisconnected" then
          setPopupConnected false;; mret Success
        else mret NoResponse
    | Minimal => mret NoResponse
    end.

End TimeTracker.

(** * Promise reactions *)

Definition run_reaction (r : Reaction) (w : World) : World :=
  match r with
  | ResetPopupConnected => with_self (with_popupConnected false (self w)) w
  end.

(** The queued reactions have run: the world once the synchronous code that
    queued them is over and the rejections have come in. *)
Definition settle (w : World) : World :=
  with_reactions [] (foldl (λ w r, run_reaction r w) w (reactions w)).

(** * The day object in the engine *)

(** [addTimeToStorage] reads and writes the day object with the statement
    [dailyData[domain] = (dailyData[domain] || 0) + timeSpent]
    (background.ts 255-257 and 441-443).  A day object is a plain object: a
    read of [dailyData[domain]] finds an own property, or else what
    Object.prototype holds under that name.  This section follows the
    statement on every name; [addTimeToStorage] above is the statement on the
    names that Object.prototype does not hold (see
    [addTimeToStorage_on_own_property_names]). *)

(** What a property of a day object holds once the statement has written it:
    the declared number, or the string that [+] makes of a value that is not
    one. *)
Inductive Stored := StoredNumber (n : Z) | StoredString (s : string).

#[global] Instance Stored_eq_dec : EqDecision Stored.
Proof. solve_decision. Defined.

(** A plain object, as the map of its own properties. *)
Definition PlainObject := gmap string Stored.

(** The properties of Object.prototype. *)
Definition Object_prototype_members : list string :=
  [ "constructor"; "__defineGetter__"; "__defineSetter__"; "hasOwnProperty";
    "__lookupGetter__"; "__lookupSetter__"; "isPrototypeOf"; "propertyIsEnumerable";
    "toString"; "valueOf"; "__proto__"; "toLocaleString" ].

(** A name under which a plain object holds nothing but what was put there. *)
Definition own_property_name (name : string) : Prop :=
  name ∉ Object_prototype_members.

#[global] Instance own_property_name_dec name : Decision (own_property_name name).
Proof. unfold own_property_name. apply _. Defined.

(** What [object[name]] evaluates to: the own property, or the member of
    Object.prototype of that name (one of its functions, or the prototype
    itself for the accessor [__proto__]). *)
Inductive PropertyValue :=
| OwnValue (v : Stored)
| BuiltinFunction (name : string)
| ThePrototype.

(** [None] is [undefined]. *)
Definition Object_get (o : PlainObject) (name : string) : option PropertyValue :=
  match o !! name with
  | Some v => Some (OwnValue v)
  | None =>
      if String.eqb name "__proto__" then Some ThePrototype
      else if bool_decide (name ∈ Object_prototype_members) then
        Some (BuiltinFunction (if String.eqb name "constructor" then "Object" else name))
      else None
  end.

(** ToBoolean. *)
Definition truthy_property (v : PropertyValue) : bool :=
  match v with
  | OwnValue (StoredNumber n) => negb (n =? 0)
  | OwnValue (StoredString s) => negb (String.eqb s "")
  | BuiltinFunction _ | ThePrototype => true
  end.

(** [v || 0] *)
Definition or_zero (v : option PropertyValue) : PropertyValue :=
  match v with
  | Some x => if truthy_property x then x else OwnValue (StoredNumber 0)
  | None => OwnValue (StoredNumber 0)
  end.

(** ToPrimitive of an operand of [+]: a function gives its source text, which
    the engine of the browser prints as below; the prototype gives
    [Object.prototype.toString()]. *)
Definition to_primitive (v : PropertyValue) : Stored :=
  match v with
  | OwnValue p => p
  | BuiltinFunction name => StoredString ("function " +:+ name +:+ "() { [native code] }")
  | ThePrototype => StoredString "[object Object]"
  end.

(** [v + timeSpent]: the sum of two numbers, and the concatenation as soon as
    one operand is a string. *)
Definition plus (v : PropertyValue) (timeSpent : Z) : Stored :=
  match to_primitive v with
  | StoredNumber n => StoredNumber (n + timeSpent)
  | StoredString s => StoredString (s +:+ Number_toString timeSpent)
  end.

(** [object[name] = v] for a primitive [v].  Without an own property the
    name [__proto__] reaches the setter of Object.prototype, which ignores a
    value that is neither an object nor null; the other members are writable,
    so the assignment makes an own property, as for any other name. *)
Definition Object_set (o : PlainObject) (name : string) (v : Stored) : PlainObject :=
  if String.eqb name "__proto__" && bool_decide (o !! name = None) then o
  else <[name := v]> o.

(** [dailyData[domain] = (dailyData[domain] || 0) + timeSpent] *)
Definition accumulate (dailyData : PlainObject) (domain : string) (timeSpent : Z) :
    PlainObject :=
  Object_set dailyData domain (plus (or_zero (Object_get dailyData domain)) timeSpent).

(** The try block of [addTimeToStorage] on a store that answers, with the
    day objects as the engine has them: [result[today] || {}], the
    statement above, and [set({ [today]: dailyData })]. *)
Definition read_accumulate_write (today domain : string) (timeSpent : Z)
    (store : gmap string PlainObject) : gmap string PlainObject :=
  let dailyData := default ∅ (store !! today) in
  <[today := accumulate dailyData domain timeSpent]> store.

(** A store of the declared type, [{ [domain: string]: number }] for each
    day, as the engine has it. *)
Definition as_objects (store : gmap string (gmap string Z)) : gmap string PlainObject :=
  (λ daily : gmap string Z, StoredNumber <$> daily) <$> store.

(** * Vocabulary of the statements *)

(** What a log call leaves alone: the tracking state, the store, the browser
    and the clock. *)
Definition same_tracking (w w' : World) : Prop :=
  currentTab (self w') = currentTab (self w) ∧
  isWindowFocused (self w') = isWindowFocused (self w) ∧
  local w' = local w ∧
  browser w' = browser w ∧
  clock w' = clock w.

(** The key that [getTodayKey] returns in [w]. *)
Definition today (w : World) : string :=
  match completion getTodayKey w with
  | Normal key => key
  | Abrupt _ => ""
  end.

(** The stored total of a domain on a day; nothing stored counts as 0. *)
Definition total (store : gmap string (gmap string Z)) (key dom : string) : Z :=
  default 0 (store !! key ≫= λ daily, daily !! dom).

(** The store after [spent] is added to [dom] under [key]. *)
Definition committed (key dom : string) (spent : Z)
    (store : gmap string (gmap string Z)) : gmap string (gmap string Z) :=
  let daily := default ∅ (store !! key) in
  <[key := <[dom := default 0 (daily !! dom) + spent]> daily]> store.

(** The store works: neither a read nor a write is rejected. *)
Definition storage_healthy (b : Browser) : Prop :=
  storageGetFault b = None ∧ storageSetFault b = None.

(** The store after [addTimeToStorage], whatever the state of the store. *)
Definition store_after_commit (w : World) (dom : string) (spent : Z) :
    gmap string (gmap string Z) :=
  match storageGetFault (browser w), storageSetFault (browser w) with
  | None, None => committed (today w) dom spent (local w)
  | _, _ => local w
  end.

(** The store after the current session is recorded at the clock of [w]. *)
Definition store_after_record (draft : Draft) (w : World) : gmap string (gmap string Z) :=
  match currentTab (self w) with
  | Some tracked =>
      if MIN_DURATION_MS draft <=? clock w - startTime tracked
      then store_after_commit w (tabDomain tracked) (clock w - startTime tracked)
      else local w
  | None => local w
  end.

(** [chrome.tabs.get(id)] as a lookup. *)
Definition tab_with_id (w : World) (id : Z) : option Tab :=
  List.find (λ t, tab_id t =? id) (openTabs (browser w)).

(** [currentTab] at the end of [handleTabChange id] started in a focused [w]. *)
Definition tab_after_change (URL_new : string → Completion URL) (w : World) (id : Z) :
    option TrackedTab :=
  match tab_with_id w id with
  | Some tab =>
      match truthy_string (tab_url tab) with
      | Some url =>
          match truthy_string (extractDomain URL_new url) with
          | Some dom => Some {| tabId := id; tabDomain := dom;
                                startTime := clock w + tabsLatency (browser w) |}
          | None => None
          end
      | None => currentTab (self w)
      end
  | None => None
  end.

(** The decimal digit [n], for [0 ≤ n ≤ 9]. *)
Definition digit (n : Z) : Ascii.ascii := Ascii.ascii_of_nat (48 + Z.to_nat n).

Definition two_digits (n : Z) : string :=
  String (digit (n / 10)) (String (digit (n mod 10)) "").

Definition four_digits (n : Z) : string :=
  String (digit (n / 1000)) (String (digit (n / 100 mod 10)) (two_digits (n mod 100))).

(** [from], [from + 1], ... ([count] numbers). *)
Definition Z_range (from : Z) (count : nat) : list Z :=
  (λ k, from + Z.of_nat k) <$> seq 0 count.

(** A call [addDebugLog(type, message, data)] made when the clock shows
    [call_time]. *)
Record LogCall := {
  call_time : Z;
  call_type : LogType;
  call_message : string;
  call_data : JsValue }.

Definition entry_of (c : LogCall) : DebugLogEntry :=
  {| timestamp := call_time c; message := call_message c;
     type := call_type c; data := call_data c |}.

Definition log_call (c : LogCall) : JS unit :=
  modify (with_clock (call_time c));;
  addDebugLog (call_type c) (call_message c) (call_data c).

Fixpoint log_calls (calls : list LogCall) : JS unit :=
  match calls with
  | [] => mret tt
  | c :: rest => log_call c;; log_calls rest
  end.

(** The log array of the tracker. *)
Definition current_logs (w : World) : list DebugLogEntry :=
  array_at (debugLogs (self w)) w.

(** Any mutation of the array behind [r]: its elements become [l]. *)
Definition mutate_array (r : ref) (l : list DebugLogEntry) (w : World) : World :=
  with_arrays (<[r := l]> (arrays w)) w.

(** * A concrete host for the examples *)

Definition lower_char (c : Ascii.ascii) : Ascii.ascii :=
  let n := Ascii.nat_of_ascii c in
  if ((65 <=? n) && (n <=? 90))%nat then Ascii.ascii_of_nat (n + 32) else c.

Fixpoint toLowerCase (s : string) : string :=
  match s with
  | EmptyString => EmptyString
  | String c rest => String (lower_char c) (toLowerCase rest)
  end.

(** [s] up to its first character in [stops], and what follows that
    character; [None] when [s] has no such character. *)
Fixpoint break_at (stops : list Ascii.ascii) (s : string) : string * option string :=
  match s with
  | EmptyString => (EmptyString, None)
  | String c rest =>
      if bool_decide (c ∈ stops) then (EmptyString, Some rest)
      else let '(before, after) := break_at stops rest in (String c before, after)
  end.

(** A URL parser for the examples: [scheme:] and, after [//], the host up to
    the first of [/ : ? #], both in lower case.  It stands in for the parser
    of the browser on the few URLs of the examples and is no model of it. *)
Definition sample_URL_new (url : string) : Completion URL :=
  match break_at [":"%char] url with
  | (EmptyString, _) | (_, None) => Abrupt "Invalid URL"
  | (scheme, Some rest) =>
      let host :=
        match rest with
        | String "/" (String "/" authority) =>
            (break_at ["/"; ":"; "?"; "#"]%char authority).1
        | _ => EmptyString
        end in
      Normal {| protocol := toLowerCase scheme +:+ ":"; hostname := toLowerCase host |}
  end.

Definition sample_tabs : list Tab :=
  [ {| tab_id := 1; tab_windowId := 1; tab_active := true;
       tab_url := Some "https://example.com/index.html" |};
    {| tab_id := 2; tab_windowId := 1; tab_active := false;
       tab_url := Some "https://other.com/" |};
    {| tab_id := 3; tab_windowId := 1; tab_active := false;
       tab_url := Some "chrome://extensions/" |};
    {| tab_id := 4; tab_windowId := 1; tab_active := false; tab_url := None |} ].

Definition sample_browser : Browser :=
  {| localDate := {| getFullYear := 2025; getMonth := 6; getDate := 4 |};
     openTabs := sample_tabs;
     currentWindowId := 1;
     tabsLatency := 0;
     storageGetFault := None;
     storageSetFault := None;
     messaging := NoReceiver |}.

Definition broken_storage_browser : Browser :=
  {| localDate := localDate sample_browser;
     openTabs := sample_tabs;
     currentWindowId := 1;
     tabsLatency := 0;
     storageGetFault := Some "storage unavailable";
     storageSetFault := None;
     messaging := NoReceiver |}.

(** The same browser when a call into chrome.tabs takes 150 ms. *)
Definition slow_browser : Browser :=
  {| localDate := localDate sample_browser;
     openTabs := sample_tabs;
     currentWindowId := 1;
     tabsLatency := 150;
     storageGetFault := None;
     storageSetFault := None;
     messaging := NoReceiver |}.

(** The world before the background script runs: nothing on the heap. *)
Definition blank (b : Browser) (store : gmap string (gmap string Z)) : World :=
  {| self := {| currentTab := None; isWindowFocused := true;
                debugLogs := 1%positive; popupConnected := false |};
     arrays := ∅; browser := b; clock := 0; local := store;
     console := []; outbox := []; reactions := [] |}.

(** The tracker of draft [d] started at time 0 on tab 1 (example.com). *)
Definition started (d : Draft) : World :=
  exec (TimeTracker_new d sample_URL_new) (blank sample_browser ∅).

(** Time passes between two events. *)
Definition at_time (t : Z) (w : World) : World := with_clock t w.

(** The tab [id] loads [url]. *)
Definition navigated (id : Z) (url : string) (w : World) : World :=
  let load t :=
    if tab_id t =? id
    then {| tab_id := tab_id t; tab_windowId := tab_windowId t;
            tab_active := tab_active t; tab_url := Some url |}
    else t in
  let b := browser w in
  {| self := self w; arrays := arrays w;
     browser := {| localDate := localDate b; openTabs := load <$> openTabs b;
                   currentWindowId := currentWindowId b; tabsLatency := tabsLatency b;
                   storageGetFault := storageGetFault b;
                   storageSetFault := storageSetFault b; messaging := messaging b |};
     clock := clock w; local := local w; console := console w; outbox := outbox w;
     reactions := reactions w |}.

Definition sample_call (t : Z) : LogCall :=
  {| call_time := t; call_type := info; call_message := "tick"; call_data := JNumber t |}.

(** * The listeners as one event handler *)

(** What the browser delivers to the listeners of background.ts. *)
Inductive Event :=
| TabActivated (activeTabId activeWindowId : Z)
| TabUpdated (id : Z) (changeInfo : TabChangeInfo) (tab : Tab)
| WindowFocusChanged (windowId : Z)
| MessageReceived (action : string).

(** The listener that the browser calls for an event; what the message
    listener responds is dropped here. *)
Definition deliver (draft : Draft) (URL_new : string → Completion URL) (e : Event) : JS unit :=
  match e with
  | TabActivated activeTabId activeWindowId => onActivated draft URL_new activeTabId activeWindowId
  | TabUpdated id changeInfo tab => onUpdated draft URL_new id changeInfo tab
  | WindowFocusChanged windowId => onFocusChanged draft URL_new windowId
  | MessageReceived action => onMessage draft action;; mret tt
  end.

(** An event together with the browser and the clock it arrives in: between
    two events the tabs, the date, the faults of the store and the time are
    free to change, and the reactions that the handlers before it queued
    have run. *)
Record Arrival := { arrival_browser : Browser; arrival_time : Z; arrival_event : Event }.

Definition arrive (a : Arrival) (w : World) : World :=
  let w := settle w in
  {| self := self w; arrays := arrays w; browser := arrival_browser a;
     clock := arrival_time a; local := local w; console := console w;
     outbox := outbox w; reactions := reactions w |}.

(** The handlers of a sequence of events, run one after the other, each
    from the world in which the one before has settled.  The code behaves so
    when no event arrives while an earlier handler is still awaiting (see
    [arrives_settled]); [run_events] itself does not look at the times. *)
Fixpoint run_events (draft : Draft) (URL_new : string → Completion URL)
    (trace : list Arrival) (w : World) : World :=
  match trace with
  | [] => w
  | a :: rest =>
      run_events draft URL_new rest (exec (deliver draft URL_new (arrival_event a)) (arrive a w))
  end.

(** No event of the trace arrives while an earlier call is still awaiting:
    each one arrives after the clock at which the handler before it, or the
    constructor for the first, has returned from its last await. *)
Fixpoint arrives_settled (draft : Draft) (URL_new : string → Completion URL)
    (trace : list Arrival) (w : World) : bool :=
  match trace with
  | [] => true
  | a :: rest =>
      (clock w <? arrival_time a) &&
      arrives_settled draft URL_new rest
        (exec (deliver draft URL_new (arrival_event a)) (arrive a w))
  end.

Definition is_focus_change (e : Event) : bool :=
  match e with WindowFocusChanged _ => true | _ => false end.

(** No total of the store [s'] is below that of [s]. *)
Definition store_le (s s' : gmap string (gmap string Z)) : Prop :=
  ∀ key dom, total s key dom ≤ total s' key dom.

(** The log array is allocated and within its bound. *)
Definition log_invariant (w : World) : Prop :=
  debugLogs (self w) ∈ dom (arrays w) ∧
  (length (current_logs w) ≤ MAX_DEBUG_LOGS)%nat.

(** An interval is open only while the window is focused. *)
Definition focus_invariant (w : World) : Prop :=
  isWindowFocused (self w) = false → currentTab (self w) = None.

(** The tabs that [chrome.tabs.query({ active: true, windowId })] finds. *)
Definition active_tabs (w : World) (windowId : Z) : list Tab :=
  List.filter (λ t, tab_active t && (tab_windowId t =? windowId)) (openTabs (browser w)).

(** What [handleTabChange id] does to the tracking state of [w]. *)
Definition changed_tab (draft : Draft) (URL_new : string → Completion URL)
    (id : Z) (w w' : World) : Prop :=
  if isWindowFocused (self w) then
    currentTab (self w') = tab_after_change URL_new w id ∧
    isWindowFocused (self w') = true ∧
    local w' = store_after_record draft w ∧
    browser w' = browser w ∧
    clock w' = clock w + tabsLatency (browser w)
  else same_tracking w w'.

(** The tracking state when the listener of a gained focus resumes after its
    query: the window counts as focused and the clock has moved on. *)
Definition refocused (w w1 : World) : Prop :=
  currentTab (self w1) = currentTab (self w) ∧
  isWindowFocused (self w1) = true ∧
  local w1 = local w ∧
  browser w1 = browser w ∧
  clock w1 = clock w + tabsLatency (browser w).

(** The interval that [initializeCurrentTab] opens in [w]: on the first
    active tab of the current window, when its id and its URL are truthy and
    the URL has a domain. *)
Definition initial_tab (URL_new : string → Completion URL) (w : World) : option TrackedTab :=
  match active_tabs w (currentWindowId (browser w)) with
  | tab :: _ =>
      if tab_id tab =? 0 then None
      else
        match truthy_string (tab_url tab) with
        | Some url =>
            match truthy_string (extractDomain URL_new url) with
            | Some dom => Some {| tabId := tab_id tab; tabDomain := dom;
                                  startTime := clock w + tabsLatency (browser w) |}
            | None => None
            end
        | None => None
        end
  | [] => None
  end.

(** The popup receives what [chrome.runtime.sendMessage] sends. *)
Definition delivering (b : Browser) : bool :=
  match messaging b with
  | Delivering => true
  | NoReceiver | ContextInvalidated => false
  end.

(** [chrome.runtime.sendMessage] throws instead of returning a promise. *)
Definition invalidated (b : Browser) : bool :=
  match messaging b with
  | ContextInvalidated => true
  | Delivering | NoReceiver => false
  end.

(** A computation keeps [I]: it holds after the run, however the run
    completes, when it held before. *)
Definition preserves {A} (I : World → Prop) (m : JS A) : Prop :=
  ∀ w, I w → I (m w).2.

(** * The popup (PopupManager) *)

(** A div.domain-item of the list: the texts that the template of
    [renderDomains] puts into its div.domain-name and its div.domain-time. *)
Record Row := { domainName : string; domainTime : string }.

(** What the popup reads and writes of an element: [style.display] and, for
    the list, the rows appended to it. *)
Record Element := { display : string; rows : list Row }.

(** The elements that [loadAndDisplayData] looks up by id; [None] when
    [getElementById] returns null. *)
Record Document := {
  loadingEl : option Element;
  domainListEl : option Element;
  noDataEl : option Element }.

Definition set_display (d : string) (el : option Element) : option Element :=
  (λ e, {| display := d; rows := rows e |}) <$> el.

(** [formatTime(milliseconds)].  [Math.floor(x / k)] is the floor division of
    [Z]; [minutes % 60] is only computed for [minutes >= 60]. *)
Definition formatTime (milliseconds : Z) : string :=
  let seconds := milliseconds / 1000 in
  let minutes := seconds / 60 in
  let hours := minutes / 60 in
  if 0 <? hours then
    let remainingMinutes := minutes mod 60 in
    if 0 <? remainingMinutes
    then Number_toString hours +:+ "h " +:+ Number_toString remainingMinutes +:+ "m"
    else Number_toString hours +:+ "h"
  else if 0 <? minutes then Number_toString minutes +:+ "m"
  else Number_toString seconds +:+ "s".

(** [renderDomains(domains)]: the list is emptied, then one row is appended
    for each element, in order. *)
Definition renderDomains (domains : list DomainData) (doc : Document) : Document :=
  match domainListEl doc with
  | None => doc
  | Some el =>
      {| loadingEl := loadingEl doc;
         domainListEl :=
           Some {| display := display el;
                   rows := (λ d, {| domainName := domain d;
                                    domainTime := formatTime (timeSpent d) |}) <$> domains |};
         noDataEl := noDataEl doc |}
  end.

(** The row of the list for one pair of [getTodayData]. *)
Definition row_of (d : DomainData) : Row :=
  {| domainName := domain d; domainTime := formatTime (timeSpent d) |}.

(** [loadAndDisplayData()], after its three lookups succeeded: [response] is
    how the awaited [sendMessage({ action: 'getTodayData' })] completes, with
    [None] for a response that is undefined.  The second component tells
    whether the catch block wrote to the console. *)
Definition display_response (response : Completion (option (list DomainData)))
    (doc : Document) : Document * bool :=
  match response with
  | Normal r =>
      let domains := default [] r in
      if bool_decide (length domains = 0%nat) then
        ({| loadingEl := set_display "none" (loadingEl doc);
            domainListEl := set_display "none" (domainListEl doc);
            noDataEl := set_display "block" (noDataEl doc) |}, false)
      else
        (renderDomains domains
           {| loadingEl := set_display "none" (loadingEl doc);
              domainListEl := set_display "block" (domainListEl doc);
              noDataEl := set_display "none" (noDataEl doc) |}, false)
  | Abrupt _ =>
      ({| loadingEl := set_display "none" (loadingEl doc);
          domainListEl := domainListEl doc;
          noDataEl := set_display "block" (noDataEl doc) |}, true)
  end.

(** The message [{ action: 'getTodayData' }] as the background script of
    draft [draft] answers it in [w]: the listener passes the list of
    [getTodayData] to [sendResponse]. *)
Definition ask_getTodayData (draft : Draft) (w : World) :
    Completion (option (list DomainData)) * World :=
  match onMessage draft "getTodayData" w with
  | (Normal (TodayData l), w') => (Normal (Some l), w')
  | (Normal _, w') => (Normal None, w')
  | (Abrupt e, w') => (Abrupt e, w')
  end.

(** [loadAndDisplayData()] of a popup whose document is [doc], against the
    background script in [w]. *)
Definition loadAndDisplayData (draft : Draft) (doc : Document) (w : World) :
    Document * bool * World :=
  match loadingEl doc, domainListEl doc, noDataEl doc with
  | Some _, Some _, Some _ =>
      let '(response, w') := ask_getTodayData draft w in
      (display_response response doc, w')
  | _, _, _ => (doc, false, w)
  end.

(** The popup as it opens: the loading line is shown. *)
Definition sample_document : Document :=
  {| loadingEl := Some {| display := "block"; rows := [] |};
     domainListEl := Some {| display := "none"; rows := [] |};
     noDataEl := Some {| display := "none"; rows := [] |} |}.

(** * Properties *)

Ltac js_unfold :=
  unfold exec, completion, mbind, mret, JS_mbind, JS_mret, JS_bind, JS_ret,
    gets, modify, try_catch, detached, throw in *.

Lemma settle_popupConnected w :
  popupConnected (self (settle w)) =
    match reactions w with
    | [] => popupConnected (self w)
    | _ :: _ => false
    end.
Proof.
  unfold settle. simpl.
  assert (Hfold : ∀ rs w0,
            popupConnected (self (foldl (λ w r, run_reaction r w) w0 rs)) =
              match rs with [] => popupConnected (self w0) | _ :: _ => false end).
  { induction rs as [|r rs IH]; intros w0; [done|]. simpl. rewrite IH.
    destruct r. by destruct rs. }
  apply Hfold.
Qed.

Lemma settle_same w :
  currentTab (self (settle w)) = currentTab (self w) ∧
  isWindowFocused (self (settle w)) = isWindowFocused (self w) ∧
  debugLogs (self (settle w)) = debugLogs (self w) ∧
  arrays (settle w) = arrays w ∧ browser (settle w) = browser w ∧
  clock (settle w) = clock w ∧ local (settle w) = local w ∧
  console (settle w) = console w ∧ outbox (settle w) = outbox w ∧
  reactions (settle w) = [].
Proof.
  unfold settle. simpl. generalize (reactions w). intros rs. revert w.
  induction rs as [|r rs IH]; intros w; simpl; [done|].
  destruct (IH (run_reaction r w)) as (? & ? & ? & ? & ? & ? & ? & ? & ? & ?).
  destruct r; simpl in *. split_and!; congruence.
Qed.

Lemma arrive_same a w :
  currentTab (self (arrive a w)) = currentTab (self w) ∧
  isWindowFocused (self (arrive a w)) = isWindowFocused (self w) ∧
  debugLogs (self (arrive a w)) = debugLogs (self w) ∧
  arrays (arrive a w) = arrays w ∧ local (arrive a w) = local w.
Proof.
  unfold arrive. simpl.
  destruct (settle_same w) as (? & ? & ? & ? & ? & ? & ? & ? & ? & ?). done.
Qed.

Lemma broadcastLogEntry_run e w :
  ∃ w', broadcastLogEntry e w = (Normal tt, w') ∧ same_tracking w w' ∧
        arrays w' = arrays w ∧ debugLogs (self w') = debugLogs (self w) ∧
        console w' = console w.
Proof.
  unfold broadcastLogEntry, chrome_runtime_sendMessage, promise_catch,
    setPopupConnectedField, same_tracking.
  js_unfold.
  destruct (popupConnected (self w)); [|eauto 10].
  destruct (messaging (browser w)); simpl; eauto 10.
Qed.

Lemma array_at_insert_eq r l h w :
  array_at r (with_arrays (<[r := l]> h) w) = l.
Proof. unfold array_at. simpl. by rewrite lookup_insert_eq. Qed.

(** One log call: the entry is put in front, the log is cut to
    [MAX_DEBUG_LOGS], one line goes to the console. *)
Lemma addDebugLog_run ty msg dat w :
  ∃ w', addDebugLog ty msg dat w = (Normal tt, w') ∧ same_tracking w w' ∧
        array_at (debugLogs (self w')) w' =
          take MAX_DEBUG_LOGS ({| timestamp := clock w; message := msg; type := ty; data := dat |}
                               :: array_at (debugLogs (self w)) w) ∧
        debugLogs (self w') ∈ dom (arrays w') ∧
        console w' =
          {| level := LevelLog;
             text := "[TimeScope Debug] " +:+ toUpperCase (LogType_string ty) +:+ ": " +:+ msg;
             arg := if truthy dat then dat else JString "" |} :: console w.
Proof.
  unfold addDebugLog, Date_now, Array_unshift, Array_length, Array_slice0, Array_new, console_log.
  js_unfold. simpl. rewrite array_at_insert_eq.
  set (e := {| timestamp := clock w; message := msg; type := ty; data := dat |}).
  set (old := array_at (debugLogs (self w)) w).
  destruct (decide (MAX_DEBUG_LOGS < length (e :: old))%nat) as [Hlong|Hshort]; simpl.
  - rewrite array_at_insert_eq.
    match goal with |- context [broadcastLogEntry e ?w0] =>
      destruct (broadcastLogEntry_run e w0) as (w' & -> & Hs & Ha & Hr & Hc) end.
    exists w'. unfold same_tracking in *. simpl in *.
    destruct Hs as (?&?&?&?&?). split_and!; try done.
    + unfold array_at. rewrite Hr, Ha. by rewrite lookup_insert_eq.
    + rewrite Hr, Ha. set_solver.
  - match goal with |- context [broadcastLogEntry e ?w0] =>
      destruct (broadcastLogEntry_run e w0) as (w' & -> & Hs & Ha & Hr & Hc) end.
    exists w'. unfold same_tracking in *. simpl in *.
    destruct Hs as (?&?&?&?&?). split_and!; try done.
    + unfold array_at. rewrite Hr, Ha. rewrite lookup_insert_eq. simpl.
      rewrite take_ge; [done|]. unfold MAX_DEBUG_LOGS in *. simpl in *. lia.
    + rewrite Hr, Ha. set_solver.
Qed.

Section Frames.
Variable draft : Draft.
Variable URL_new : string → Completion URL.

Lemma debug_run ty msg dat w :
  ∃ w', debug draft ty msg dat w = (Normal tt, w') ∧ same_tracking w w' ∧
        (debugLogs (self w) ∈ dom (arrays w) → debugLogs (self w') ∈ dom (arrays w')) ∧
        ∃ lines, console w' = lines ++ console w ∧ Forall (λ l, level l = LevelLog) lines.
Proof.
  unfold debug. destruct draft.
  - destruct (addDebugLog_run ty msg (dat w) w) as (w' & -> & Hs & _ & Hd & Hc).
    exists w'. split_and!; try done. eexists [_]. split; [exact Hc|]. by repeat constructor.
  - exists w. unfold same_tracking. split_and!; try done. exists []. by split.
Qed.

Lemma debug_normal ty msg dat w :
  debug draft ty msg dat w = (Normal tt, exec (debug draft ty msg dat) w).
Proof.
  destruct (debug_run ty msg dat w) as (w' & H & _). unfold exec. by rewrite H.
Qed.

Lemma debug_same ty msg dat w : same_tracking w (exec (debug draft ty msg dat) w).
Proof.
  destruct (debug_run ty msg dat w) as (w' & H & Hs & _). unfold exec. by rewrite H.
Qed.

End Frames.

(** ** The day key and the store *)

Lemma getTodayKey_run w : getTodayKey w = (Normal (today w), w).
Proof. reflexivity. Qed.

Lemma today_same_browser w w' : browser w' = browser w → today w' = today w.
Proof.
  intros Hb. unfold today, completion, getTodayKey, Date_new. js_unfold. simpl.
  by rewrite Hb.
Qed.

Lemma number_or_zero_default (o : option Z) : number_or_zero o = default 0 o.
Proof. destruct o as [v|]; simpl; [|done]. destruct (Z.eqb_spec v 0); congruence. Qed.

Lemma lookup_requested_key (key : string) (store : gmap string (gmap string Z)) :
  filter (λ kv, kv.1 ∈ [key]) store !! key = store !! key.
Proof.
  rewrite map_lookup_filter. destruct (store !! key) as [daily|]; simpl; [|done].
  rewrite option_guard_True; [done|]. simpl. set_solver.
Qed.

Lemma addTimeToStorage_healthy dom spent w :
  storage_healthy (browser w) →
  addTimeToStorage dom spent w =
    (Normal tt, with_local (committed (today w) dom spent (local w)) w).
Proof.
  intros [Hget Hset].
  unfold addTimeToStorage, chrome_storage_local_get, chrome_storage_local_set.
  js_unfold. rewrite getTodayKey_run. simpl. rewrite Hget, Hset.
  rewrite lookup_requested_key, number_or_zero_default.
  unfold committed. by rewrite <- insert_union_singleton_l.
Qed.

Lemma addTimeToStorage_faulty dom spent w :
  ¬ storage_healthy (browser w) →
  ∃ line, addTimeToStorage dom spent w = (Normal tt, with_console (line :: console w) w) ∧
          level line = LevelError.
Proof.
  intros Hbad.
  unfold addTimeToStorage, chrome_storage_local_get, chrome_storage_local_set, console_error.
  js_unfold. rewrite getTodayKey_run. simpl.
  destruct (storageGetFault (browser w)) as [e|] eqn:Hget; simpl; [eauto|].
  destruct (storageSetFault (browser w)) as [e|] eqn:Hset; simpl; [eauto|].
  destruct Hbad. by split.
Qed.

Lemma addTimeToStorage_run dom spent w :
  ∃ w', addTimeToStorage dom spent w = (Normal tt, w') ∧
        self w' = self w ∧ arrays w' = arrays w ∧ browser w' = browser w ∧
        clock w' = clock w ∧ local w' = store_after_commit w dom spent.
Proof.
  unfold store_after_commit.
  destruct (storageGetFault (browser w)) as [e|] eqn:Hget.
  - destruct (addTimeToStorage_faulty dom spent w) as (line & -> & _).
    { intros [H _]. congruence. }
    eexists. split; [done|]. by simpl.
  - destruct (storageSetFault (browser w)) as [e|] eqn:Hset.
    + destruct (addTimeToStorage_faulty dom spent w) as (line & -> & _).
      { intros [_ H]. congruence. }
      eexists. split; [done|]. by simpl.
    + rewrite addTimeToStorage_healthy by done. eexists. split; [done|]. by simpl.
Qed.

Section Sessions.
Variable draft : Draft.
Variable URL_new : string → Completion URL.

(** [recordCurrentSession] completes, writes at most one commit, and leaves
    [currentTab] as it found it. *)
Lemma recordCurrentSession_run w :
  ∃ w', recordCurrentSession draft w = (Normal tt, w') ∧
        currentTab (self w') = currentTab (self w) ∧
        isWindowFocused (self w') = isWindowFocused (self w) ∧
        browser w' = browser w ∧ clock w' = clock w ∧
        local w' = store_after_record draft w.
Proof.
  unfold recordCurrentSession, store_after_record, Date_now. js_unfold.
  destruct (currentTab (self w)) as [tracked|] eqn:Hcur.
  - rewrite debug_normal.
    match goal with |- context [exec ?m w] =>
      destruct (debug_same draft _ _ _ w : same_tracking w (exec m w)) as (Hc & Hf & Hl & Hb & Hk);
      set (w1 := exec m w) in * end.
    destruct (MIN_DURATION_MS draft <=? clock w - startTime tracked).
    + destruct (addTimeToStorage_run (tabDomain tracked) (clock w - startTime tracked) w1)
        as (w2 & H2 & Hs2 & _ & Hb2 & Hk2 & Hl2).
      rewrite H2. simpl. exists w2. rewrite Hs2, Hb2, Hk2, Hl2.
      split_and!; try congruence.
      unfold store_after_commit. by rewrite (today_same_browser w w1 Hb), Hb, Hl.
    + exists w1. split_and!; congruence.
  - rewrite debug_normal.
    match goal with |- context [exec ?m w] =>
      destruct (debug_same draft _ _ _ w : same_tracking w (exec m w)) as (Hc & Hf & Hl & Hb & Hk);
      set (w1 := exec m w) in * end.
    exists w1. split_and!; congruence.
Qed.

End Sessions.

Ltac step_debug :=
  rewrite debug_normal;
  match goal with
  | |- context [exec (debug ?d ?ty ?msg ?dat) ?w] =>
      let wn := fresh "w" in
      destruct (debug_same d ty msg dat w) as (?&?&?&?&?);
      set (wn := exec (debug d ty msg dat) w) in *
  end.

Section TabChange.
Variable draft : Draft.
Variable URL_new : string → Completion URL.

Lemma handleTabChange_unfocused id w :
  isWindowFocused (self w) = false →
  ∃ w', handleTabChange draft URL_new id w = (Normal tt, w') ∧ same_tracking w w'.
Proof.
  intros Hf. unfold handleTabChange. js_unfold. rewrite Hf. simpl.
  rewrite debug_normal. eexists. split; [done|]. apply debug_same.
Qed.

Lemma handleTabChange_focused id w :
  isWindowFocused (self w) = true →
  ∃ w', handleTabChange draft URL_new id w = (Normal tt, w') ∧
        currentTab (self w') = tab_after_change URL_new w id ∧
        isWindowFocused (self w') = true ∧
        local w' = store_after_record draft w ∧
        browser w' = browser w ∧
        clock w' = clock w + tabsLatency (browser w).
Proof.
  intros Hf. unfold handleTabChange, tab_after_change, tab_with_id. js_unfold. rewrite Hf. simpl.
  destruct (recordCurrentSession_run draft w) as (w1 & -> & Hc1 & Hf1 & Hb1 & Hk1 & Hl1).
  unfold await_tabs, chrome_tabs_get, Date_now, setCurrentTab, console_error. js_unfold.
  rewrite Hb1.
  destruct (List.find _ (openTabs (browser w))) as [tab|]; simpl.
  - destruct (truthy_string (tab_url tab)) as [url|]; simpl.
    + destruct (truthy_string (extractDomain URL_new url)) as [dom|]; simpl.
      * step_debug. simpl in *. eexists. split; [done|].
        split_and!; try congruence.
      * step_debug. simpl in *. eexists. split; [done|].
        split_and!; try congruence.
    + eexists. split; [done|]. simpl. split_and!; congruence.
  - step_debug. simpl in *. eexists. split; [done|]. simpl.
    split_and!; congruence.
Qed.

End TabChange.

Section Listeners.
Variable draft : Draft.
Variable URL_new : string → Completion URL.

Lemma onFocusChanged_none_run w :
  ∃ w', onFocusChanged draft URL_new WINDOW_ID_NONE w = (Normal tt, w') ∧
        currentTab (self w') = None ∧
        isWindowFocused (self w') = false ∧
        local w' = store_after_record draft w ∧
        browser w' = browser w ∧ clock w' = clock w.
Proof.
  unfold onFocusChanged, setWindowFocused, setCurrentTab. simpl. js_unfold.
  step_debug. simpl.
  match goal with |- context [recordCurrentSession draft ?w1] =>
    destruct (recordCurrentSession_run draft w1) as (w2 & -> & Hc2 & Hf2 & Hb2 & Hk2 & Hl2) end.
  simpl in *. eexists. split; [done|]. simpl. split_and!; try congruence.
  rewrite Hl2. unfold store_after_record, store_after_commit, today. simpl.
  repeat match goal with H : _ = _ |- _ => rewrite H end. done.
Qed.

Lemma onActivated_unfocused id wid w :
  isWindowFocused (self w) = false →
  ∃ w', onActivated draft URL_new id wid w = (Normal tt, w') ∧ same_tracking w w'.
Proof.
  intros Hf. unfold onActivated. js_unfold. step_debug.
  destruct (handleTabChange_unfocused draft URL_new id w0) as (w' & -> & Hs); [congruence|].
  exists w'. split; [done|]. unfold same_tracking in *. destruct Hs as (?&?&?&?&?).
  split_and!; congruence.
Qed.

Lemma onUpdated_unfocused id changeInfo tab w :
  isWindowFocused (self w) = false →
  onUpdated draft URL_new id changeInfo tab w = (Normal tt, w).
Proof.
  intros Hf. unfold onUpdated. js_unfold. rewrite Hf.
  by rewrite andb_false_r.
Qed.

End Listeners.

Example sample_started_tab d :
  currentTab (self (started d)) = Some {| tabId := 1; tabDomain := "example.com"; startTime := 0 |}.
Proof. destruct d; vm_compute; reflexivity. Qed.

(** The scenarios of the specification, with times that pass the threshold
    of both drafts.  A: tab 1 (example.com) from 0, tab 2 activated at 2500. *)
Example scenario_A d :
  local (exec (onActivated d sample_URL_new 2 1) (at_time 2500 (started d)))
  = {[ "2025-07-04" := {[ "example.com" := 2500 ]} ]}.
Proof. destruct d; compute_done. Qed.

(** B: tab 1 from 0, focus lost at 500: nothing is stored. *)
Example scenario_B d :
  local (exec (onFocusChanged d sample_URL_new WINDOW_ID_NONE) (at_time 500 (started d))) = ∅.
Proof. destruct d; compute_done. Qed.

(** C: tab 1 from 0, the same tab has loaded other.com at 2000. *)
Example scenario_C d :
  let tab := {| tab_id := 1; tab_windowId := 1; tab_active := true;
                tab_url := Some "https://other.com/news" |} in
  let w := navigated 1 "https://other.com/news" (at_time 2000 (started d)) in
  let w' := exec (onUpdated d sample_URL_new 1 {| status := Some "complete" |} tab) w in
  local w' = {[ "2025-07-04" := {[ "example.com" := 2000 ]} ]} ∧
  currentTab (self w') = Some {| tabId := 1; tabDomain := "other.com"; startTime := 2000 |}.
Proof. destruct d; cbv zeta; compute_done. Qed.

(** D: nothing recorded today. *)
Example scenario_D d : completion getTodayData (started d) = Normal [].
Proof. destruct d; compute_done. Qed.

(** ** The claims *)

(** C2. Threshold exclusion: a current interval whose elapsed time is strictly
    below the threshold of the draft (1000 ms in the first draft, 2000 ms in
    the second) is closed without any write: the whole store, every day and
    every domain of it, is what it was, whether the interval is closed by
    [recordCurrentSession] itself, by a tab change or by the loss of focus. *)
Theorem short_session_leaves_store_unchanged
    (draft : Draft) (URL_new : string → Completion URL) (w : World) (tracked : TrackedTab) :
  currentTab (self w) = Some tracked →
  clock w - startTime tracked < MIN_DURATION_MS draft →
  (MIN_DURATION_MS Instrumented = 1000 ∧ MIN_DURATION_MS Minimal = 2000) ∧
  local (exec (recordCurrentSession draft) w) = local w ∧
  (∀ id, local (exec (handleTabChange draft URL_new id) w) = local w) ∧
  local (exec (onFocusChanged draft URL_new WINDOW_ID_NONE) w) = local w.
Proof.
  intros Hcur Hshort.
  assert (Hrec : store_after_record draft w = local w).
  { unfold store_after_record. rewrite Hcur.
    destruct (Z.leb_spec (MIN_DURATION_MS draft) (clock w - startTime tracked)); [lia|done]. }
  split_and!; try done.
  - destruct (recordCurrentSession_run draft w) as (w' & H & _ & _ & _ & _ & Hl).
    unfold exec. rewrite H. simpl. congruence.
  - intros id. unfold exec. destruct (isWindowFocused (self w)) eqn:Hf.
    + destruct (handleTabChange_focused draft URL_new id w Hf) as (w' & -> & _ & _ & Hl & _).
      simpl. congruence.
    + destruct (handleTabChange_unfocused draft URL_new id w Hf) as (w' & -> & Hs).
      simpl. apply Hs.
  - destruct (onFocusChanged_none_run draft URL_new w) as (w' & H & _ & _ & Hl & _).
    unfold exec. rewrite H. simpl. congruence.
Qed.

Lemma short_session_leaves_store_unchanged_witness :
  let w := at_time 1500 (started Minimal) in
  local (exec (recordCurrentSession Minimal) w) = local w ∧
  local (exec (handleTabChange Minimal sample_URL_new 2) w) = local w ∧
  local (exec (onFocusChanged Minimal sample_URL_new WINDOW_ID_NONE) w) = local w.
Proof.
  intros w.
  destruct (short_session_leaves_store_unchanged Minimal sample_URL_new w
              {| tabId := 1; tabDomain := "example.com"; startTime := 0 |})
    as (_ & Hrec & Htab & Hfocus).
  - vm_compute. reflexivity.
  - vm_compute. reflexivity.
  - split_and!; [exact Hrec | exact (Htab 2) | exact Hfocus].
Defined.

(** C4. Focus gating: while [isWindowFocused] is false, a tab-activated or a
    tab-updated event neither opens nor closes an interval: [currentTab] and
    the store are what they were, and the window stays unfocused. *)
Theorem unfocused_tab_events_are_ignored
    (draft : Draft) (URL_new : string → Completion URL) (w : World) :
  isWindowFocused (self w) = false →
  (∀ id windowId,
     let w' := exec (onActivated draft URL_new id windowId) w in
     currentTab (self w') = currentTab (self w) ∧ local w' = local w ∧
     isWindowFocused (self w') = false) ∧
  (∀ id changeInfo tab,
     let w' := exec (onUpdated draft URL_new id changeInfo tab) w in
     currentTab (self w') = currentTab (self w) ∧ local w' = local w ∧
     isWindowFocused (self w') = false).
Proof.
  intros Hf. split.
  - intros id windowId w'. subst w'. unfold exec.
    destruct (onActivated_unfocused draft URL_new id windowId w Hf) as (w' & -> & Hs).
    destruct Hs as (?&?&?&?&?). simpl. split_and!; congruence.
  - intros id changeInfo tab w'. subst w'. unfold exec.
    rewrite onUpdated_unfocused by done. simpl. done.
Qed.

Lemma unfocused_tab_events_are_ignored_witness :
  let w := at_time 700 (exec (onFocusChanged Instrumented sample_URL_new WINDOW_ID_NONE)
                             (at_time 400 (started Instrumented))) in
  let activated := exec (onActivated Instrumented sample_URL_new 2 1) w in
  let updated :=
    exec (onUpdated Instrumented sample_URL_new 2 {| status := Some "complete" |}
            {| tab_id := 2; tab_windowId := 1; tab_active := true;
               tab_url := Some "https://other.com/" |}) w in
  (currentTab (self activated) = currentTab (self w) ∧ local activated = local w) ∧
  (currentTab (self updated) = currentTab (self w) ∧ local updated = local w).
Proof.
  intros w.
  destruct (unfocused_tab_events_are_ignored Instrumented sample_URL_new w) as [Ha Hu].
  - vm_compute. reflexivity.
  - split.
    + destruct (Ha 2 1) as (H1 & H2 & _). by split.
    + destruct (Hu 2 {| status := Some "complete" |}
                  {| tab_id := 2; tab_windowId := 1; tab_active := true;
                     tab_url := Some "https://other.com/" |}) as (H1 & H2 & _).
      by split.
Defined.



(** C9. A failed tab lookup: when [chrome.tabs.get] rejects because no tab
    has the id, [handleTabChange] still completes normally, the failure is
    written to the console as an error (and, in the first draft, is the newest
    entry of the debug log), and [currentTab] is absent. *)
Theorem failed_tab_lookup_is_caught
    (draft : Draft) (URL_new : string → Completion URL) (id : Z) (w : World) :
  isWindowFocused (self w) = true →
  tab_with_id w id = None →
  let w' := exec (handleTabChange draft URL_new id) w in
  completion (handleTabChange draft URL_new id) w = Normal tt ∧
  currentTab (self w') = None ∧
  head (console w') =
    Some {| level := LevelError; text := "Error getting tab info:";
            arg := JString ("No tab with id: " +:+ Number_toString id +:+ ".") |} ∧
  (draft = Instrumented →
   ∃ entry, head (array_at (debugLogs (self w')) w') = Some entry ∧
            type entry = error ∧
            message entry = "Error getting tab info during tab change").
Proof.
  intros Hf Hnone w'. subst w'. unfold exec, completion.
  unfold handleTabChange, tab_with_id in *. js_unfold. rewrite Hf. simpl.
  destruct (recordCurrentSession_run draft w) as (w1 & -> & _ & _ & Hb1 & _ & _).
  unfold await_tabs, chrome_tabs_get, console_error, setCurrentTab. js_unfold.
  rewrite Hb1, Hnone. simpl.
  unfold debug. destruct draft.
  - match goal with |- context [addDebugLog ?ty ?msg ?dat ?w0] =>
      destruct (addDebugLog_run ty msg dat w0) as (w2 & -> & _ & Ha & _ & _) end.
    simpl. split_and!; try done.
    intros _. unfold array_at in *. simpl in *. rewrite Ha. simpl. eauto.
  - simpl. split_and!; try done.
Qed.

Lemma failed_tab_lookup_is_caught_witness :
  let w := at_time 1500 (started Instrumented) in
  let w' := exec (handleTabChange Instrumented sample_URL_new 99) w in
  completion (handleTabChange Instrumented sample_URL_new 99) w = Normal tt ∧
  currentTab (self w') = None ∧
  head (console w') =
    Some {| level := LevelError; text := "Error getting tab info:";
            arg := JString "No tab with id: 99." |}.
Proof.
  intros w.
  destruct (failed_tab_lookup_is_caught Instrumented sample_URL_new 99 w)
    as (Hn & Hc & Hlog & _).
  - vm_compute. reflexivity.
  - vm_compute. reflexivity.
  - split_and!; [exact Hn | exact Hc | exact Hlog].
Defined.

(** A tab without a truthy [url] takes neither branch of [if (tab.url)]:
    [currentTab] stays what it was before the change, recorded or not. *)
Lemma handleTabChange_without_url_keeps_currentTab
    (draft : Draft) (URL_new : string → Completion URL) (id : Z) (w : World) (tab : Tab) :
  isWindowFocused (self w) = true →
  tab_with_id w id = Some tab →
  truthy_string (tab_url tab) = None →
  currentTab (self (exec (handleTabChange draft URL_new id) w)) = currentTab (self w).
Proof.
  intros Hf Htab Hurl. unfold exec.
  destruct (handleTabChange_focused draft URL_new id w Hf) as (w' & -> & Hc & _).
  simpl. rewrite Hc. unfold tab_after_change. by rewrite Htab, Hurl.
Qed.

(** C1. The code at an input where the claim fails.  The tracker has been on
    tab 1 (example.com) since time 0 and the window is focused.  At 5000 the
    active tab becomes tab 4, whose [url] is undefined: the session of 5000 ms
    is committed, and [currentTab] is still the interval of tab 1 started at
    0, not absent.  At 8000 tab 2 is activated and the same interval is
    committed again, now with 8000 ms: the store holds 13000 ms for 8000 ms of
    browsing. *)
Theorem tab_without_url_keeps_the_closed_interval (draft : Draft) :
  let w := at_time 5000 (started draft) in
  let w' := exec (handleTabChange draft sample_URL_new 4) w in
  let w'' := exec (handleTabChange draft sample_URL_new 2) (at_time 8000 w') in
  isWindowFocused (self w) = true ∧
  local w' = {[ "2025-07-04" := {[ "example.com" := 5000 ]} ]} ∧
  currentTab (self w') = Some {| tabId := 1; tabDomain := "example.com"; startTime := 0 |} ∧
  currentTab (self w') ≠ None ∧
  local w'' = {[ "2025-07-04" := {[ "example.com" := 13000 ]} ]}.
Proof.
  destruct draft; cbv zeta; compute_done.
Qed.

(** C3. [extractDomain] returns null exactly when the URL constructor throws
    or the protocol is [chrome:] or [chrome-extension:], and otherwise the
    hostname of the URL object as it is.  A tab change to a tab whose URL has
    no domain in this sense opens no interval: afterwards [currentTab] is
    absent, or (unfocused window, empty URL) what it was before. *)
Theorem extractDomain_absent_iff_unparsable_or_internal
    (URL_new : string → Completion URL) (url : string) :
  (extractDomain URL_new url = None ↔
     (∃ e, URL_new url = Abrupt e) ∨
     (∃ urlObj, URL_new url = Normal urlObj ∧
                (protocol urlObj = "chrome:" ∨ protocol urlObj = "chrome-extension:"))) ∧
  (∀ urlObj,
     URL_new url = Normal urlObj →
     protocol urlObj ≠ "chrome:" → protocol urlObj ≠ "chrome-extension:" →
     extractDomain URL_new url = Some (hostname urlObj)) ∧
  (∀ draft id w tab,
     extractDomain URL_new url = None →
     tab_with_id w id = Some tab →
     tab_url tab = Some url →
     let w' := exec (handleTabChange draft URL_new id) w in
     (isWindowFocused (self w) = true → url ≠ "" → currentTab (self w') = None) ∧
     (currentTab (self w') = None ∨ currentTab (self w') = currentTab (self w))).
Proof.
  split_and!.
  - unfold extractDomain. destruct (URL_new url) as [urlObj|e].
    + destruct (String.eqb_spec (protocol urlObj) "chrome:") as [Hc|Hc];
        destruct (String.eqb_spec (protocol urlObj) "chrome-extension:") as [He|He];
        simpl; (split; [intros H; try discriminate H; right; eauto|]); try done.
      intros [[e H]|(u & H & [H1|H2])]; simplify_eq.
    + split; [intros _; left; eauto | done].
  - intros urlObj Hparse Hc He. unfold extractDomain. rewrite Hparse.
    destruct (String.eqb_spec (protocol urlObj) "chrome:"); [done|].
    destruct (String.eqb_spec (protocol urlObj) "chrome-extension:"); done.
  - intros draft id w tab Hnone Htab Hurl w'. subst w'. unfold exec.
    destruct (isWindowFocused (self w)) eqn:Hf.
    + destruct (handleTabChange_focused draft URL_new id w Hf) as (w' & -> & Hc & _).
      simpl. rewrite Hc. unfold tab_after_change. rewrite Htab, Hurl. simpl.
      destruct (String.eqb_spec url "") as [->|Hne].
      * split; [done|by right].
      * rewrite Hnone. simpl. split; [done|by left].
    + destruct (handleTabChange_unfocused draft URL_new id w Hf) as (w' & -> & Hs).
      simpl. split; [done|]. right. apply Hs.
Qed.

Lemma extractDomain_absent_iff_unparsable_or_internal_witness :
  extractDomain sample_URL_new "chrome://extensions/" = None ∧
  (let w := at_time 1500 (started Instrumented) in
   currentTab (self (exec (handleTabChange Instrumented sample_URL_new 3) w)) = None).
Proof.
  destruct (extractDomain_absent_iff_unparsable_or_internal
              sample_URL_new "chrome://extensions/") as (Hiff & _ & Hno).
  assert (Hnone : extractDomain sample_URL_new "chrome://extensions/" = None).
  { apply Hiff. right. exists {| protocol := "chrome:"; hostname := "extensions" |}.
    split; [vm_compute; reflexivity | left; reflexivity]. }
  split; [exact Hnone|].
  intros w.
  refine (proj1 (Hno Instrumented 3 w
            {| tab_id := 3; tab_windowId := 1; tab_active := false;
               tab_url := Some "chrome://extensions/" |} Hnone _ _) _ _).
  - vm_compute. reflexivity.
  - reflexivity.
  - vm_compute. reflexivity.
  - discriminate.
Defined.

(** ** Today's totals *)

Lemma elem_of_Z_range from count n :
  from ≤ n < from + Z.of_nat count → n ∈ Z_range from count.
Proof.
  intros Hn. unfold Z_range. apply list_elem_of_fmap.
  exists (Z.to_nat (n - from)). split; [lia|].
  apply elem_of_seq. lia.
Qed.

Lemma checked_on_range (P : Z → Prop) `{∀ n, Decision (P n)} from count n :
  forallb (λ n, bool_decide (P n)) (Z_range from count) = true →
  from ≤ n < from + Z.of_nat count → P n.
Proof.
  intros Hall Hn. rewrite forallb_forall in Hall.
  eapply bool_decide_eq_true_1, Hall.
  apply list_elem_of_In. by apply elem_of_Z_range.
Qed.

Lemma padStart_two_digits n :
  0 ≤ n ≤ 99 → padStart 2 "0" (Number_toString n) = two_digits n.
Proof.
  intros Hn.
  apply (checked_on_range (λ n, padStart 2 "0" (Number_toString n) = two_digits n) 0 (Z.to_nat 100));
    [vm_compute; reflexivity | lia].
Qed.

Lemma Number_toString_four_digits n :
  1000 ≤ n ≤ 9999 → Number_toString n = four_digits n.
Proof.
  intros Hn.
  apply (checked_on_range (λ n, Number_toString n = four_digits n) 1000 (Z.to_nat 9000));
    [vm_compute; reflexivity | lia].
Qed.

Lemma today_shape (w : World) :
  let now := localDate (browser w) in
  0 ≤ getMonth now ≤ 11 → 1 ≤ getDate now ≤ 31 →
  today w = Number_toString (getFullYear now) +:+ "-" +:+
            two_digits (getMonth now + 1) +:+ "-" +:+ two_digits (getDate now).
Proof.
  intros now Hm Hd. unfold today, completion, getTodayKey, Date_new. js_unfold. simpl.
  fold now.
  rewrite (padStart_two_digits (getMonth now + 1)) by lia.
  by rewrite (padStart_two_digits (getDate now)) by lia.
Qed.

#[global] Instance sorts_before_transitive : Transitive sorts_before.
Proof. intros a b c. unfold sorts_before, compareFn. lia. Qed.

#[global] Instance sorts_before_total : Total sorts_before.
Proof. intros a b. unfold sorts_before, compareFn. lia. Qed.

Lemma StronglySorted_weaken {A} (R R' : A → A → Prop) (l : list A) :
  (∀ a b, R a b → R' a b) → StronglySorted R l → StronglySorted R' l.
Proof.
  intros HR. induction 1 as [|a l Hs IH Hall]; constructor; [done|].
  eapply Forall_impl; [exact Hall|]. auto.
Qed.

Lemma Array_sort_descending (l : list DomainData) :
  StronglySorted (λ a b, timeSpent b ≤ timeSpent a) (Array_sort l).
Proof.
  apply (StronglySorted_weaken sorts_before).
  - intros a b. unfold sorts_before, compareFn. lia.
  - apply StronglySorted_merge_sort; apply _.
Qed.

Lemma Array_sort_Permutation (l : list DomainData) : Array_sort l ≡ₚ l.
Proof. apply merge_sort_Permutation. Qed.

Lemma elem_of_entries (dailyData : gmap string Z) (dom : string) (spent : Z) :
  {| domain := dom; timeSpent := spent |} ∈ entries dailyData ↔ dailyData !! dom = Some spent.
Proof.
  unfold entries. rewrite list_elem_of_fmap. split.
  - intros ([k v] & Heq & Hin). simpl in Heq. simplify_eq.
    by apply elem_of_map_to_list in Hin.
  - intros H. exists (dom, spent). split; [done|]. by apply elem_of_map_to_list.
Qed.

Lemma entries_domains (dailyData : gmap string Z) :
  domain <$> entries dailyData = (map_to_list dailyData).*1.
Proof.
  unfold entries. rewrite <- list_fmap_compose. by apply list_fmap_ext.
Qed.

Lemma getTodayData_read_ok w :
  storageGetFault (browser w) = None →
  getTodayData w = (Normal (Array_sort (entries (default ∅ (local w !! today w)))), w).
Proof.
  intros Hget. unfold getTodayData, chrome_storage_local_get. js_unfold.
  rewrite getTodayKey_run. simpl. rewrite Hget. by rewrite lookup_requested_key.
Qed.

Lemma getTodayData_read_fails w e :
  storageGetFault (browser w) = Some e →
  getTodayData w =
    (Normal [], with_console ({| level := LevelError; text := "Error loading today data:";
                                 arg := JString e |} :: console w) w).
Proof.
  intros Hget. unfold getTodayData, chrome_storage_local_get, console_error. js_unfold.
  rewrite getTodayKey_run. simpl. by rewrite Hget.
Qed.

(** C6. Today's totals.  The day key is the local year, month and day joined
    by dashes, month and day padded to two digits (so YYYY-MM-DD for a year of
    four digits).  With a working read [getTodayData] returns the entries of
    the object stored under that key, the empty object when none is stored:
    one pair for each stored domain, carrying its stored time, in descending
    order of [timeSpent]. *)
Theorem getTodayData_lists_today_descending (w : World) :
  storageGetFault (browser w) = None →
  let now := localDate (browser w) in
  let dailyData := default ∅ (local w !! today w) in
  getTodayKey w = (Normal (today w), w) ∧
  (0 ≤ getMonth now ≤ 11 → 1 ≤ getDate now ≤ 31 →
   today w = Number_toString (getFullYear now) +:+ "-" +:+
             two_digits (getMonth now + 1) +:+ "-" +:+ two_digits (getDate now) ∧
   (1000 ≤ getFullYear now ≤ 9999 →
    today w = four_digits (getFullYear now) +:+ "-" +:+
              two_digits (getMonth now + 1) +:+ "-" +:+ two_digits (getDate now))) ∧
  ∃ l, getTodayData w = (Normal l, w) ∧
       l ≡ₚ entries dailyData ∧
       (∀ dom spent,
          {| domain := dom; timeSpent := spent |} ∈ l ↔ dailyData !! dom = Some spent) ∧
       NoDup (domain <$> l) ∧
       length l = size dailyData ∧
       StronglySorted (λ a b, timeSpent b ≤ timeSpent a) l ∧
       (local w !! today w = None → l = []).
Proof.
  intros Hget now dailyData. split_and!.
  - apply getTodayKey_run.
  - intros Hm Hd. split; [by apply today_shape|].
    intros Hy. rewrite today_shape by done. fold now.
    by rewrite Number_toString_four_digits.
  - exists (Array_sort (entries dailyData)).
    split; [by apply getTodayData_read_ok|].
    pose proof (Array_sort_Permutation (entries dailyData)) as Hperm.
    split_and!.
    + done.
    + intros dom spent. rewrite Hperm. apply elem_of_entries.
    + rewrite Hperm, entries_domains. apply NoDup_fst_map_to_list.
    + rewrite Hperm. unfold entries. rewrite length_fmap. apply length_map_to_list.
    + apply Array_sort_descending.
    + intros Hnone. subst dailyData. rewrite Hnone. reflexivity.
Qed.

Lemma getTodayData_lists_today_descending_witness :
  let w := exec (handleTabChange Instrumented sample_URL_new 1)
             (at_time 4000 (exec (handleTabChange Instrumented sample_URL_new 2)
                                 (at_time 2500 (started Instrumented)))) in
  today w = "2025-07-04" ∧
  ∃ l, getTodayData w = (Normal l, w) ∧
       l ≡ₚ [ {| domain := "other.com"; timeSpent := 1500 |};
              {| domain := "example.com"; timeSpent := 2500 |} ] ∧
       StronglySorted (λ a b, timeSpent b ≤ timeSpent a) l.
Proof.
  intros w.
  destruct (getTodayData_lists_today_descending w)
    as (_ & Hkey & l & Hrun & Hperm & _ & _ & _ & Hsorted & _).
  - vm_compute. reflexivity.
  - split.
    + destruct Hkey as [_ Hyear]; [vm_compute; split; discriminate ..|].
      rewrite Hyear; [reflexivity | vm_compute; split; discriminate].
    + exists l. split; [exact Hrun|]. split; [|exact Hsorted].
      etransitivity; [exact Hperm|]. compute_done.
Defined.

(** C7. [getTodayData] never throws: whatever the store does it completes
    with a list, and when the read is rejected that list is empty (and the
    rejection goes to the console). *)
Theorem getTodayData_never_throws (w : World) :
  ∃ l, completion getTodayData w = Normal l ∧
       (∀ e, storageGetFault (browser w) = Some e →
             l = [] ∧ local (exec getTodayData w) = local w ∧
             head (console (exec getTodayData w)) =
               Some {| level := LevelError; text := "Error loading today data:";
                       arg := JString e |}).
Proof.
  unfold completion, exec.
  destruct (storageGetFault (browser w)) as [e|] eqn:Hget.
  - rewrite (getTodayData_read_fails w e Hget). simpl.
    exists []. split; [done|]. intros e' He'. by simplify_eq.
  - rewrite (getTodayData_read_ok w Hget). simpl. eexists. split; [done|]. done.
Qed.

Lemma getTodayData_never_throws_witness :
  let w := blank broken_storage_browser {[ "2025-07-04" := {[ "example.com" := 2500 ]} ]} in
  completion getTodayData w = Normal [].
Proof.
  intros w.
  destruct (getTodayData_never_throws w) as (l & Hrun & Hempty).
  destruct (Hempty "storage unavailable") as (-> & _).
  - reflexivity.
  - exact Hrun.
Defined.

(** ** Commits *)

Lemma total_committed_same key dom spent store :
  committed key dom spent store !! key ≫= (λ daily, daily !! dom)
  = Some (total store key dom + spent).
Proof.
  unfold committed, total. rewrite lookup_insert_eq. simpl. rewrite lookup_insert_eq.
  by destruct (store !! key) as [daily|].
Qed.

Lemma committed_other_domain key dom dom' spent store :
  dom' ≠ dom →
  committed key dom spent store !! key ≫= (λ daily, daily !! dom')
  = store !! key ≫= (λ daily, daily !! dom').
Proof.
  intros Hne. unfold committed. rewrite lookup_insert_eq. simpl.
  rewrite lookup_insert_ne by done.
  by destruct (store !! key) as [daily|].
Qed.

Lemma committed_other_day key key' dom spent store :
  key' ≠ key → committed key dom spent store !! key' = store !! key'.
Proof. intros Hne. unfold committed. by rewrite lookup_insert_ne. Qed.

Lemma committed_total_mono key dom spent store key' dom' :
  0 ≤ spent → total store key' dom' ≤ total (committed key dom spent store) key' dom'.
Proof.
  intros Hpos. destruct (decide (key' = key)) as [->|Hk].
  - destruct (decide (dom' = dom)) as [->|Hd].
    + unfold total at 2. rewrite total_committed_same. simpl. lia.
    + unfold total. by rewrite committed_other_domain.
  - unfold total. by rewrite committed_other_day.
Qed.

Lemma own_property_name_not_proto dom : own_property_name dom → dom ≠ "__proto__".
Proof. intros Hown ->. apply Hown. unfold Object_prototype_members. set_solver. Qed.

(** On a day object of numbers and a name that Object.prototype does not
    hold, the statement of the code is the update of the map of own
    properties. *)
Lemma accumulate_own_property_name (daily : gmap string Z) dom spent :
  own_property_name dom →
  accumulate (StoredNumber <$> daily) dom spent
  = StoredNumber <$> <[dom := default 0 (daily !! dom) + spent]> daily.
Proof.
  intros Hown. pose proof (own_property_name_not_proto dom Hown) as Hproto.
  unfold accumulate, Object_get, Object_set. rewrite (lookup_fmap StoredNumber daily dom).
  destruct (String.eqb_spec dom "__proto__") as [?|_]; [done|]. simpl.
  rewrite bool_decide_eq_false_2 by exact Hown.
  rewrite fmap_insert. f_equal.
  destruct (daily !! dom) as [n|]; simpl; [|done].
  unfold plus. destruct (Z.eqb_spec n 0) as [->|_]; simpl; done.
Qed.

(** A name of a function of Object.prototype that the day object does not
    hold itself gets the source text of the function, followed by the
    digits of the time. *)
Lemma accumulate_inherited_function (o : PlainObject) name spent :
  name ∈ Object_prototype_members → name ≠ "__proto__" → o !! name = None →
  accumulate o name spent
  = <[name := StoredString (("function " +:+ (if String.eqb name "constructor"
                                              then "Object" else name)
                             +:+ "() { [native code] }") +:+ Number_toString spent)]> o.
Proof.
  intros Hin Hproto Hnone. unfold accumulate, Object_get, Object_set. rewrite Hnone.
  destruct (String.eqb_spec name "__proto__") as [?|_]; [done|]. simpl.
  by rewrite bool_decide_eq_true_2 by exact Hin.
Qed.

(** And for [__proto__] nothing is stored at all. *)
Lemma accumulate_proto (o : PlainObject) spent :
  o !! "__proto__" = None → accumulate o "__proto__" spent = o.
Proof.
  intros Hnone. unfold accumulate, Object_set. simpl.
  by rewrite bool_decide_eq_true_2 by exact Hnone.
Qed.

Lemma committed_as_objects key dom spent store :
  own_property_name dom →
  as_objects (committed key dom spent store)
  = read_accumulate_write key dom spent (as_objects store).
Proof.
  intros Hown. unfold committed, read_accumulate_write, as_objects.
  rewrite fmap_insert, lookup_fmap. f_equal.
  destruct (store !! key) as [daily|]; simpl.
  - by rewrite accumulate_own_property_name.
  - rewrite <- (accumulate_own_property_name ∅) by done. by rewrite fmap_empty.
Qed.

Lemma addTimeToStorage_on_own_property_names dom spent w :
  storage_healthy (browser w) → own_property_name dom →
  as_objects (local (exec (addTimeToStorage dom spent) w))
  = read_accumulate_write (today w) dom spent (as_objects (local w)).
Proof.
  intros Hok Hown. unfold exec. rewrite addTimeToStorage_healthy by done. simpl.
  by apply committed_as_objects.
Qed.

(** C8. The commit does not add for every domain.  A tab on
    [http://constructor/] opens an interval for the domain [constructor].
    On the first commit of the day the read [dailyData[domain]] finds no own
    property and answers with the function that every object inherits under
    that name, so the code stores the text of that function followed by the
    digits of the time, where the claim has [0 + 2500].  The next commit
    appends its digits to that string.  For the domain [__proto__] the commit
    stores nothing. *)
Theorem commit_to_inherited_name_stores_no_sum :
  let day := "2025-07-04" in
  let visiting := exec (handleTabChange Minimal sample_URL_new 2)
                    (navigated 2 "http://constructor/" (at_time 1000 (started Minimal))) in
  let once := read_accumulate_write day "constructor" 2500 (as_objects (local visiting)) in
  let twice := read_accumulate_write day "constructor" 3000 once in
  currentTab (self visiting)
    = Some {| tabId := 2; tabDomain := "constructor"; startTime := 1000 |} ∧
  today visiting = day ∧
  local visiting = ∅ ∧
  once !! day ≫= (λ daily, daily !! "constructor")
    = Some (StoredString "function Object() { [native code] }2500") ∧
  once !! day ≫= (λ daily, daily !! "constructor") ≠ Some (StoredNumber (0 + 2500)) ∧
  twice !! day ≫= (λ daily, daily !! "constructor")
    = Some (StoredString "function Object() { [native code] }25003000") ∧
  read_accumulate_write day "__proto__" 2500 (as_objects (local visiting)) = {[ day := ∅ ]}.
Proof.
  cbv zeta. compute_done.
Qed.

(** The commit is a read and a write with an await between them, and
    nobody awaits the commit.  When a second commit reads before the first
    has written, its write puts back the total that the first has raised. *)
Example overlapping_commits_lower_a_total :
  let day := "2025-07-04" in
  let store : gmap string PlainObject := {[ day := {[ "a.com" := StoredNumber 5000 ]} ]} in
  let answered := default ∅ (store !! day) in
  let first_written := <[day := accumulate answered "a.com" 2000]> store in
  let second_written := <[day := accumulate answered "b.com" 3000]> first_written in
  first_written !! day ≫= (λ daily, daily !! "a.com") = Some (StoredNumber 7000) ∧
  second_written !! day ≫= (λ daily, daily !! "a.com") = Some (StoredNumber 5000).
Proof.
  cbv zeta. compute_done.
Qed.

(** ** The debug log *)

Lemma take_app_take {A} (n : nat) (l k : list A) :
  take n (l ++ take n k) = take n (l ++ k).
Proof.
  rewrite !take_app. f_equal. rewrite take_take. f_equal. lia.
Qed.

Lemma log_call_run c w :
  ∃ w', log_call c w = (Normal tt, w') ∧
        current_logs w' = take MAX_DEBUG_LOGS (entry_of c :: current_logs w) ∧
        debugLogs (self w') ∈ dom (arrays w').
Proof.
  unfold log_call. js_unfold.
  destruct (addDebugLog_run (call_type c) (call_message c) (call_data c)
              (with_clock (call_time c) w)) as (w' & -> & _ & Ha & Hd & _).
  exists w'. split_and!; done.
Qed.

Lemma log_calls_run calls w :
  debugLogs (self w) ∈ dom (arrays w) →
  (length (current_logs w) ≤ MAX_DEBUG_LOGS)%nat →
  ∃ w', log_calls calls w = (Normal tt, w') ∧
        current_logs w' = take MAX_DEBUG_LOGS (rev (entry_of <$> calls) ++ current_logs w) ∧
        debugLogs (self w') ∈ dom (arrays w').
Proof.
  revert w. induction calls as [|c rest IH]; intros w Hd Hlen.
  - exists w. split_and!; try done. simpl. by rewrite take_ge.
  - simpl. js_unfold.
    destruct (log_call_run c w) as (w1 & -> & Ha1 & Hd1).
    destruct (IH w1 Hd1) as (w2 & -> & Ha2 & Hd2).
    { rewrite Ha1. rewrite length_take. lia. }
    exists w2. split_and!; try done.
    rewrite Ha2, Ha1, take_app_take. by rewrite <- app_assoc.
Qed.

Lemma getDebugLogs_run w :
  debugLogs (self w) ∈ dom (arrays w) →
  ∃ r, getDebugLogs w = (Normal r, mutate_array r (current_logs w) w) ∧
       r ≠ debugLogs (self w).
Proof.
  intros Hd. unfold getDebugLogs, Array_spread, Array_new. js_unfold.
  eexists. split; [reflexivity|].
  intros Heq. rewrite <- Heq in Hd. by apply is_fresh in Hd.
Qed.

(** C10. The debug log is bounded, newest first, and handed out as a copy.
    From a tracker whose log array is allocated and holds at most
    [MAX_DEBUG_LOGS] entries, after any sequence of [addDebugLog] calls
    [getDebugLogs] returns a new array: it holds the entries of the calls,
    the last call first, followed by the older entries, cut to 100; it is not
    the array of the tracker, whose content it repeats; whatever is then
    written into it leaves the log of the tracker as it is. *)
Theorem getDebugLogs_returns_bounded_recent_copy (calls : list LogCall) (w : World) :
  debugLogs (self w) ∈ dom (arrays w) →
  (length (current_logs w) ≤ MAX_DEBUG_LOGS)%nat →
  ∃ r w',
    getDebugLogs (exec (log_calls calls) w) = (Normal r, w') ∧
    (length (array_at r w') ≤ 100)%nat ∧
    array_at r w' = take 100 (rev (entry_of <$> calls) ++ current_logs w) ∧
    array_at r w' = current_logs w' ∧
    r ≠ debugLogs (self w') ∧
    (∀ l, current_logs (mutate_array r l w') = current_logs w').
Proof.
  intros Hd Hlen. unfold exec.
  destruct (log_calls_run calls w Hd Hlen) as (w1 & -> & Ha1 & Hd1). simpl.
  destruct (getDebugLogs_run w1 Hd1) as (r & -> & Hr).
  exists r, (mutate_array r (current_logs w1) w1).
  assert (Hcopy : array_at r (mutate_array r (current_logs w1) w1) = current_logs w1).
  { unfold mutate_array. apply array_at_insert_eq. }
  assert (Hkeep : ∀ l, current_logs (mutate_array r l w1) = current_logs w1).
  { intros l. unfold current_logs, mutate_array, array_at. simpl.
    by rewrite lookup_insert_ne. }
  split_and!.
  - done.
  - rewrite Hcopy, Ha1. rewrite length_take. unfold MAX_DEBUG_LOGS. lia.
  - by rewrite Hcopy, Ha1.
  - by rewrite Hcopy, Hkeep.
  - done.
  - intros l. unfold current_logs, mutate_array, array_at. simpl.
    by rewrite !lookup_insert_ne.
Qed.

Lemma getDebugLogs_returns_bounded_recent_copy_witness :
  let calls := sample_call <$> Z_range 1 150 in
  ∃ r w',
    getDebugLogs (exec (log_calls calls) (started Instrumented)) = (Normal r, w') ∧
    length (array_at r w') = 100%nat ∧
    timestamp <$> take 3 (array_at r w') = [150; 149; 148] ∧
    current_logs (mutate_array r [] w') = current_logs w'.
Proof.
  intros calls.
  destruct (getDebugLogs_returns_bounded_recent_copy calls (started Instrumented))
    as (r & w' & Hrun & _ & Hlogs & _ & _ & Hkeep).
  - compute_done.
  - vm_compute. lia.
  - exists r, w'. split_and!.
    + exact Hrun.
    + rewrite Hlogs. vm_compute. reflexivity.
    + rewrite Hlogs. vm_compute. reflexivity.
    + exact (Hkeep []).
Defined.

(** * Beyond the claims: the listeners, the store and the popup *)

Lemma same_tracking_refl w : same_tracking w w.
Proof. by unfold same_tracking. Qed.

Lemma same_tracking_trans w1 w2 w3 :
  same_tracking w1 w2 → same_tracking w2 w3 → same_tracking w1 w3.
Proof.
  unfold same_tracking. intros (?&?&?&?&?) (?&?&?&?&?). split_and!; congruence.
Qed.

Lemma store_after_record_same draft w w' :
  same_tracking w w' → store_after_record draft w' = store_after_record draft w.
Proof.
  intros (Hc & _ & Hl & Hb & Hk). unfold store_after_record, store_after_commit.
  by rewrite (today_same_browser w w' Hb), Hc, Hl, Hb, Hk.
Qed.

Lemma tab_after_change_same URL_new w w' id :
  same_tracking w w' → tab_after_change URL_new w' id = tab_after_change URL_new w id.
Proof.
  intros (Hc & _ & _ & Hb & Hk). unfold tab_after_change, tab_with_id.
  by rewrite Hc, Hb, Hk.
Qed.

(** A recorded session only adds to the store. *)
Lemma store_after_record_le draft w : store_le (local w) (store_after_record draft w).
Proof.
  intros key dom. unfold store_after_record.
  destruct (currentTab (self w)) as [tracked|]; [|done].
  destruct (Z.leb_spec (MIN_DURATION_MS draft) (clock w - startTime tracked)); [|done].
  unfold store_after_commit.
  destruct (storageGetFault (browser w)); [done|].
  destruct (storageSetFault (browser w)); [done|].
  apply committed_total_mono. destruct draft; simpl in *; lia.
Qed.

Lemma store_le_refl s : store_le s s.
Proof. by intros key dom. Qed.

Lemma store_le_trans s1 s2 s3 : store_le s1 s2 → store_le s2 s3 → store_le s1 s3.
Proof. intros H1 H2 key dom. specialize (H1 key dom). specialize (H2 key dom). lia. Qed.

Section Handlers.
Variable draft : Draft.
Variable URL_new : string → Completion URL.

Lemma handleTabChange_run id w :
  ∃ w', handleTabChange draft URL_new id w = (Normal tt, w') ∧ changed_tab draft URL_new id w w'.
Proof.
  unfold changed_tab. destruct (isWindowFocused (self w)) eqn:Hf.
  - destruct (handleTabChange_focused draft URL_new id w Hf) as (w' & H & ?). eauto.
  - destruct (handleTabChange_unfocused draft URL_new id w Hf) as (w' & H & ?). eauto.
Qed.

Lemma changed_tab_same id w0 w w' :
  same_tracking w w0 → changed_tab draft URL_new id w0 w' → changed_tab draft URL_new id w w'.
Proof.
  intros Hs. unfold changed_tab. pose proof Hs as (Hc & Hf & Hl & Hb & Hk). rewrite Hf.
  destruct (isWindowFocused (self w)).
  - rewrite (tab_after_change_same URL_new w w0 id Hs), (store_after_record_same draft w w0 Hs).
    rewrite Hb, Hk. done.
  - intros Hs'. by eapply same_tracking_trans.
Qed.

Lemma onActivated_run id windowId w :
  ∃ w', onActivated draft URL_new id windowId w = (Normal tt, w') ∧ changed_tab draft URL_new id w w'.
Proof.
  unfold onActivated. js_unfold. rewrite debug_normal.
  match goal with |- context [exec (debug ?d ?ty ?msg ?dat) w] =>
    pose proof (debug_same d ty msg dat w) as Hs; set (w0 := exec (debug d ty msg dat) w) in * end.
  destruct (handleTabChange_run id w0) as (w' & -> & Hch). simpl.
  exists w'. split; [done|]. by eapply changed_tab_same.
Qed.

Lemma onUpdated_run id changeInfo tab w :
  ∃ w', onUpdated draft URL_new id changeInfo tab w = (Normal tt, w') ∧
        (same_tracking w w' ∨ changed_tab draft URL_new id w w').
Proof.
  unfold onUpdated. js_unfold.
  destruct (bool_decide (status changeInfo = Some "complete") && tab_active tab
            && isWindowFocused (self w)).
  - rewrite debug_normal.
    match goal with |- context [exec (debug ?d ?ty ?msg ?dat) w] =>
      pose proof (debug_same d ty msg dat w) as Hs;
      set (w0 := exec (debug d ty msg dat) w) in * end.
    destruct (handleTabChange_run id w0) as (w' & -> & Hch). simpl.
    exists w'. split; [done|]. right. by eapply changed_tab_same.
  - exists w. split; [done|]. left. apply same_tracking_refl.
Qed.

Lemma onFocusChanged_gained_run windowId w :
  windowId ≠ WINDOW_ID_NONE →
  ∃ w1 w', onFocusChanged draft URL_new windowId w = (Normal tt, w') ∧
           refocused w w1 ∧
           match active_tabs w windowId with
           | tab :: _ => changed_tab draft URL_new (tab_id tab) w1 w'
           | [] => same_tracking w1 w'
           end.
Proof.
  intros Hwin. unfold onFocusChanged.
  destruct (Z.eqb_spec windowId WINDOW_ID_NONE) as [?|_]; [done|].
  unfold setWindowFocused, await_tabs, chrome_tabs_query_active, active_tabs. js_unfold. simpl.
  step_debug. simpl in *.
  set (w1 := with_clock (clock w0 + tabsLatency (browser w0)) w0).
  match goal with H : browser w0 = _ |- _ => rewrite H end.
  assert (Hre : refocused w w1).
  { unfold refocused. subst w1. simpl. split_and!; congruence. }
  destruct (List.filter _ (openTabs (browser w))) as [|tab rest]; simpl.
  - rewrite debug_normal. eexists w1, _. split; [done|]. split; [done|]. apply debug_same.
  - rewrite debug_normal.
    match goal with |- context [exec (debug ?d ?ty ?msg ?dat) w1] =>
      pose proof (debug_same d ty msg dat w1) as Hs;
      set (w2 := exec (debug d ty msg dat) w1) in * end.
    destruct (handleTabChange_run (tab_id tab) w2) as (w' & -> & Hch). simpl.
    exists w1, w'. split; [done|]. split; [done|]. by eapply changed_tab_same.
Qed.

End Handlers.

Lemma getTodayData_frame w :
  ∃ l w', getTodayData w = (Normal l, w') ∧ same_tracking w w' ∧
          self w' = self w ∧ arrays w' = arrays w.
Proof.
  destruct (storageGetFault (browser w)) as [e|] eqn:Hget.
  - rewrite (getTodayData_read_fails w e Hget). eexists _, _. split; [done|].
    unfold same_tracking. by simpl.
  - rewrite (getTodayData_read_ok w Hget). eexists _, _. split; [done|].
    split; [apply same_tracking_refl|done].
Qed.

Lemma setPopupConnected_run connected w :
  ∃ w', setPopupConnected connected w = (Normal tt, w') ∧ same_tracking w w'.
Proof.
  unfold setPopupConnected, setPopupConnectedField, Date_now. js_unfold. simpl.
  destruct connected;
    match goal with |- context [addDebugLog ?ty ?msg ?dat ?w0] =>
      destruct (addDebugLog_run ty msg dat w0) as (w' & -> & Hs & _) end;
    exists w'; (split; [done|]); unfold same_tracking in *; simpl in *; done.
Qed.

(** The message listener answers and leaves the tracking state alone. *)
Lemma onMessage_run draft action w :
  ∃ r w', onMessage draft action w = (Normal r, w') ∧ same_tracking w w'.
Proof.
  unfold onMessage. js_unfold.
  destruct (String.eqb action "getTodayData").
  { destruct (getTodayData_frame w) as (l & w' & -> & Hs & _). eauto. }
  destruct draft; [|eexists _, w; split; [done|apply same_tracking_refl]].
  destruct (String.eqb action "getDebugLogs").
  { unfold getDebugLogs, Array_spread, Array_new. js_unfold. simpl.
    eexists _, _. split; [done|]. unfold same_tracking. by simpl. }
  destruct (String.eqb action "popupConnected").
  { destruct (setPopupConnected_run true w) as (w' & -> & Hs). eauto. }
  destruct (String.eqb action "popupDisconnected").
  { destruct (setPopupConnected_run false w) as (w' & -> & Hs). eauto. }
  eexists _, w. split; [done|apply same_tracking_refl].
Qed.

Section Traces.
Variable draft : Draft.
Variable URL_new : string → Completion URL.

(** Every listener completes normally. *)
Lemma deliver_normal e w :
  completion (deliver draft URL_new e) w = Normal tt.
Proof.
  unfold completion. destruct e as [id wid|id ci tab|wid|action]; simpl.
  - destruct (onActivated_run draft URL_new id wid w) as (w' & -> & _). done.
  - destruct (onUpdated_run draft URL_new id ci tab w) as (w' & -> & _). done.
  - destruct (decide (wid = WINDOW_ID_NONE)) as [->|Hne].
    + destruct (onFocusChanged_none_run draft URL_new w) as (w' & -> & _). done.
    + destruct (onFocusChanged_gained_run draft URL_new wid w Hne) as (w1 & w' & -> & _). done.
  - js_unfold. destruct (onMessage_run draft action w) as (r & w' & -> & _). done.
Qed.

Lemma changed_tab_store_le id w w' :
  changed_tab draft URL_new id w w' → store_le (local w) (local w').
Proof.
  unfold changed_tab. destruct (isWindowFocused (self w)).
  - intros (_ & _ & Hl & _). rewrite Hl. apply store_after_record_le.
  - intros (_ & _ & Hl & _). rewrite Hl. apply store_le_refl.
Qed.

Lemma changed_tab_focus id w w' :
  focus_invariant w → changed_tab draft URL_new id w w' → focus_invariant w'.
Proof.
  unfold changed_tab, focus_invariant. destruct (isWindowFocused (self w)).
  - intros _ (_ & Hf & _). congruence.
  - intros Hinv (Hc & Hf & _) _. rewrite Hc. by apply Hinv.
Qed.

Lemma deliver_store_le e w :
  store_le (local w) (local (exec (deliver draft URL_new e) w)).
Proof.
  unfold exec. destruct e as [id wid|id ci tab|wid|action]; simpl.
  - destruct (onActivated_run draft URL_new id wid w) as (w' & -> & Hch). simpl.
    by eapply changed_tab_store_le.
  - destruct (onUpdated_run draft URL_new id ci tab w) as (w' & -> & [Hs|Hch]); simpl.
    + destruct Hs as (_ & _ & Hl & _). rewrite Hl. apply store_le_refl.
    + by eapply changed_tab_store_le.
  - destruct (decide (wid = WINDOW_ID_NONE)) as [->|Hne].
    + destruct (onFocusChanged_none_run draft URL_new w) as (w' & -> & _ & _ & Hl & _). simpl.
      rewrite Hl. apply store_after_record_le.
    + destruct (onFocusChanged_gained_run draft URL_new wid w Hne)
        as (w1 & w' & -> & (_ & _ & Hl1 & _) & Hcase). simpl. rewrite <- Hl1.
      destruct (active_tabs w wid) as [|tab rest].
      * destruct Hcase as (_ & _ & Hl & _). rewrite Hl. apply store_le_refl.
      * by eapply changed_tab_store_le.
  - js_unfold. destruct (onMessage_run draft action w) as (r & w' & -> & Hs). simpl.
    destruct Hs as (_ & _ & Hl & _). rewrite Hl. apply store_le_refl.
Qed.

Lemma store_after_record_commits_once w :
  store_after_record draft w = local w ∨
  ∃ tracked spent, currentTab (self w) = Some tracked ∧ MIN_DURATION_MS draft ≤ spent ∧
    store_after_record draft w = committed (today w) (tabDomain tracked) spent (local w).
Proof.
  unfold store_after_record.
  destruct (currentTab (self w)) as [tracked|]; [|by left].
  destruct (Z.leb_spec (MIN_DURATION_MS draft) (clock w - startTime tracked)); [|by left].
  unfold store_after_commit.
  destruct (storageGetFault (browser w)); [by left|].
  destruct (storageSetFault (browser w)); [by left|].
  right. eauto.
Qed.

Lemma changed_tab_commits_once id w w' :
  changed_tab draft URL_new id w w' →
  local w' = local w ∨
  ∃ tracked spent, currentTab (self w) = Some tracked ∧ MIN_DURATION_MS draft ≤ spent ∧
    local w' = committed (today w) (tabDomain tracked) spent (local w).
Proof.
  unfold changed_tab. destruct (isWindowFocused (self w)).
  - intros (_ & _ & Hl & _). rewrite Hl. apply store_after_record_commits_once.
  - intros (_ & _ & Hl & _). by left.
Qed.

(** A listener commits at most once, to the domain of the open interval and
    at least the threshold. *)
Lemma deliver_commits_once e w :
  let w' := exec (deliver draft URL_new e) w in
  local w' = local w ∨
  ∃ tracked spent, currentTab (self w) = Some tracked ∧ MIN_DURATION_MS draft ≤ spent ∧
    local w' = committed (today w) (tabDomain tracked) spent (local w).
Proof.
  unfold exec. destruct e as [id wid|id ci tab|wid|action]; simpl.
  - destruct (onActivated_run draft URL_new id wid w) as (w' & -> & Hch). simpl.
    by eapply changed_tab_commits_once.
  - destruct (onUpdated_run draft URL_new id ci tab w) as (w' & -> & [Hs|Hch]); simpl.
    + destruct Hs as (_ & _ & Hl & _). by left.
    + by eapply changed_tab_commits_once.
  - destruct (decide (wid = WINDOW_ID_NONE)) as [->|Hne].
    + destruct (onFocusChanged_none_run draft URL_new w) as (w' & -> & _ & _ & Hl & _). simpl.
      rewrite Hl. apply store_after_record_commits_once.
    + destruct (onFocusChanged_gained_run draft URL_new wid w Hne)
        as (w1 & w' & -> & (Hc1 & _ & Hl1 & Hb1 & _) & Hcase). simpl.
      rewrite <- Hl1, <- Hc1, <- (today_same_browser w w1 Hb1).
      destruct (active_tabs w wid) as [|tab rest].
      * destruct Hcase as (_ & _ & Hl & _). by left.
      * by eapply changed_tab_commits_once.
  - js_unfold. destruct (onMessage_run draft action w) as (r & w' & -> & Hs). simpl.
    destruct Hs as (_ & _ & Hl & _). by left.
Qed.

Lemma deliver_focus_invariant e w :
  focus_invariant w → focus_invariant (exec (deliver draft URL_new e) w).
Proof.
  intros Hinv. unfold exec. destruct e as [id wid|id ci tab|wid|action]; simpl.
  - destruct (onActivated_run draft URL_new id wid w) as (w' & -> & Hch). simpl.
    by eapply changed_tab_focus.
  - destruct (onUpdated_run draft URL_new id ci tab w) as (w' & -> & [Hs|Hch]); simpl.
    + destruct Hs as (Hc & Hf & _). unfold focus_invariant in *. rewrite Hc, Hf. exact Hinv.
    + by eapply changed_tab_focus.
  - destruct (decide (wid = WINDOW_ID_NONE)) as [->|Hne].
    + destruct (onFocusChanged_none_run draft URL_new w) as (w' & -> & Hc & _). simpl.
      by intros _.
    + destruct (onFocusChanged_gained_run draft URL_new wid w Hne)
        as (w1 & w' & -> & (_ & Hf1 & _) & Hcase). simpl.
      assert (Hinv1 : focus_invariant w1) by (unfold focus_invariant; congruence).
      destruct (active_tabs w wid) as [|tab rest].
      * destruct Hcase as (_ & Hf & _). unfold focus_invariant. congruence.
      * by eapply changed_tab_focus.
  - js_unfold. destruct (onMessage_run draft action w) as (r & w' & -> & Hs). simpl.
    destruct Hs as (Hc & Hf & _). unfold focus_invariant in *. rewrite Hc, Hf. exact Hinv.
Qed.

End Traces.

(** ** What every handler keeps *)

Section Preservation.
Context {I : World → Prop}.

Lemma preserves_ret {A} (a : A) : preserves I (mret a).
Proof. by intros w. Qed.

Lemma preserves_bind {A B} (m : JS A) (k : A → JS B) :
  preserves I m → (∀ a, preserves I (k a)) → preserves I (m ≫= k).
Proof.
  intros Hm Hk w Hw. specialize (Hm w Hw). js_unfold.
  destruct (m w) as [[a|e] w1]; simpl in *; [by apply Hk|done].
Qed.

Lemma preserves_try_catch {A} (body : JS A) (handler : string → JS A) :
  preserves I body → (∀ e, preserves I (handler e)) → preserves I (try_catch body handler).
Proof.
  intros Hm Hk w Hw. specialize (Hm w Hw). js_unfold.
  destruct (body w) as [[a|e] w1]; simpl in *; [done|by apply Hk].
Qed.

Lemma preserves_detached {A} (m : JS A) : preserves I m → preserves I (detached m).
Proof. intros Hm w Hw. by apply Hm. Qed.

Lemma preserves_gets {A} (f : World → A) : preserves I (gets f).
Proof. by intros w. Qed.

Lemma preserves_modify (f : World → World) : (∀ w, I w → I (f w)) → preserves I (modify f).
Proof. intros Hf w Hw. by apply Hf. Qed.

End Preservation.

(** A change of the world that touches neither the heap nor the reference
    to the log keeps the log invariant. *)
Lemma log_invariant_same w w' :
  arrays w' = arrays w → debugLogs (self w') = debugLogs (self w) →
  log_invariant w → log_invariant w'.
Proof.
  unfold log_invariant, current_logs, array_at. intros Ha Hr. by rewrite Ha, Hr.
Qed.

Ltac log_same := intros ? ?; eapply log_invariant_same; [| |eassumption]; reflexivity.

Lemma addDebugLog_keeps_log ty msg dat : preserves log_invariant (addDebugLog ty msg dat).
Proof.
  intros w _. destruct (addDebugLog_run ty msg dat w) as (w' & -> & _ & Ha & Hd & _).
  split; [done|]. unfold current_logs. simpl. rewrite Ha, length_take. lia.
Qed.

Lemma debug_keeps_log draft ty msg dat : preserves log_invariant (debug draft ty msg dat).
Proof.
  unfold debug. destruct draft; [|apply preserves_ret].
  intros w Hw. by apply addDebugLog_keeps_log.
Qed.

Lemma getDebugLogs_keeps_log : preserves log_invariant getDebugLogs.
Proof.
  intros w [Hd Hlen]. destruct (getDebugLogs_run w Hd) as (r & -> & Hr). simpl.
  unfold log_invariant, current_logs, mutate_array, array_at in *. simpl.
  rewrite lookup_insert_ne by done. split; [set_solver|done].
Qed.

Lemma await_tabs_keeps_log {A} (p : JS A) :
  preserves log_invariant p → preserves log_invariant (await_tabs p).
Proof.
  intros Hp w Hw. specialize (Hp w Hw). unfold await_tabs.
  destruct (p w) as [c w1]. simpl in *. by eapply log_invariant_same.
Qed.

Lemma chrome_tabs_get_keeps_log id : preserves log_invariant (chrome_tabs_get id).
Proof. intros w Hw. unfold chrome_tabs_get. by destruct (List.find _ _). Qed.

Lemma chrome_storage_local_get_keeps_log keys :
  preserves log_invariant (chrome_storage_local_get keys).
Proof. intros w Hw. unfold chrome_storage_local_get. by destruct (storageGetFault _). Qed.

Lemma chrome_storage_local_set_keeps_log items :
  preserves log_invariant (chrome_storage_local_set items).
Proof.
  intros w Hw. unfold chrome_storage_local_set.
  destruct (storageSetFault _); [done|]. by eapply log_invariant_same.
Qed.

(** One step of a proof that a method keeps the log invariant. *)
Ltac keep_log_step :=
  lazymatch goal with
  | |- preserves _ (addDebugLog _ _ _) => apply addDebugLog_keeps_log
  | |- preserves _ (debug _ _ _ _) => apply debug_keeps_log
  | |- preserves _ getDebugLogs => apply getDebugLogs_keeps_log
  | |- preserves _ (chrome_tabs_get _) => apply chrome_tabs_get_keeps_log
  | |- preserves _ (chrome_storage_local_get _) => apply chrome_storage_local_get_keeps_log
  | |- preserves _ (chrome_storage_local_set _) => apply chrome_storage_local_set_keeps_log
  | |- preserves _ (await_tabs _) => apply await_tabs_keeps_log
  | |- preserves _ (mret _) => apply preserves_ret
  | |- preserves _ (gets _) => apply preserves_gets
  | |- preserves _ (detached _) => apply preserves_detached
  | |- preserves _ (modify _) => apply preserves_modify; log_same
  | |- preserves _ (try_catch _ _) => apply preserves_try_catch; [|intros ?]
  | |- preserves _ (mbind _ _) => apply preserves_bind; [|intros ?]
  | |- preserves _ (if ?b then _ else _) => destruct b
  | |- preserves _ (match ?x with _ => _ end) => destruct x
  end.

Lemma getTodayKey_keeps_log : preserves log_invariant getTodayKey.
Proof. unfold getTodayKey, Date_new. repeat keep_log_step. Qed.

Lemma addTimeToStorage_keeps_log dom spent :
  preserves log_invariant (addTimeToStorage dom spent).
Proof.
  unfold addTimeToStorage, console_error.
  apply preserves_bind; [apply getTodayKey_keeps_log|intros today].
  repeat keep_log_step.
Qed.

Lemma getTodayData_keeps_log : preserves log_invariant getTodayData.
Proof.
  unfold getTodayData, console_error.
  apply preserves_bind; [apply getTodayKey_keeps_log|intros today].
  repeat keep_log_step.
Qed.

Lemma recordCurrentSession_keeps_log draft :
  preserves log_invariant (recordCurrentSession draft).
Proof.
  unfold recordCurrentSession, Date_now.
  apply preserves_bind; [apply preserves_gets|intros [tracked|]]; [|apply debug_keeps_log].
  apply preserves_bind; [apply preserves_gets|intros now].
  apply preserves_bind; [apply debug_keeps_log|intros _].
  destruct (MIN_DURATION_MS draft <=? now - startTime tracked); [|apply preserves_ret].
  apply preserves_detached, addTimeToStorage_keeps_log.
Qed.

Lemma handleTabChange_keeps_log draft URL_new id :
  preserves log_invariant (handleTabChange draft URL_new id).
Proof.
  unfold handleTabChange, Date_now, setCurrentTab, console_error.
  apply preserves_bind; [apply preserves_gets|intros focused].
  destruct (negb focused); [apply debug_keeps_log|].
  apply preserves_bind; [apply recordCurrentSession_keeps_log|intros _].
  repeat keep_log_step.
Qed.

Lemma setPopupConnected_keeps_log connected :
  preserves log_invariant (setPopupConnected connected).
Proof.
  unfold setPopupConnected, setPopupConnectedField, Date_now. repeat keep_log_step.
Qed.

Lemma deliver_keeps_log draft URL_new e :
  preserves log_invariant (deliver draft URL_new e).
Proof.
  destruct e as [id wid|id ci tab|wid|action]; simpl.
  - unfold onActivated.
    apply preserves_bind; [apply debug_keeps_log|intros _].
    apply preserves_detached, handleTabChange_keeps_log.
  - unfold onUpdated.
    apply preserves_bind; [apply preserves_gets|intros focused].
    destruct (_ && _); [|apply preserves_ret].
    apply preserves_bind; [apply debug_keeps_log|intros _].
    apply preserves_detached, handleTabChange_keeps_log.
  - unfold onFocusChanged, setWindowFocused, setCurrentTab, chrome_tabs_query_active.
    destruct (wid =? WINDOW_ID_NONE).
    + apply preserves_bind; [apply debug_keeps_log|intros _].
      apply preserves_bind; [apply preserves_modify; log_same|intros _].
      apply preserves_bind; [apply recordCurrentSession_keeps_log|intros _].
      apply preserves_modify; log_same.
    + apply preserves_bind; [apply preserves_gets|intros previous].
      apply preserves_bind; [apply preserves_modify; log_same|intros _].
      apply preserves_bind; [apply debug_keeps_log|intros _].
      apply preserves_bind; [apply await_tabs_keeps_log, preserves_gets|intros [|tab rest]];
        [apply debug_keeps_log|].
      apply preserves_bind; [apply debug_keeps_log|intros _].
      apply preserves_detached, handleTabChange_keeps_log.
  - apply preserves_bind; [|intros _; apply preserves_ret].
    unfold onMessage.
    destruct (String.eqb action "getTodayData").
    { apply preserves_bind; [apply getTodayData_keeps_log|intros l; apply preserves_ret]. }
    destruct draft; [|apply preserves_ret].
    destruct (String.eqb action "getDebugLogs").
    { apply preserves_bind; [apply getDebugLogs_keeps_log|intros r; apply preserves_ret]. }
    destruct (String.eqb action "popupConnected").
    { apply preserves_bind; [apply setPopupConnected_keeps_log|intros _; apply preserves_ret]. }
    destruct (String.eqb action "popupDisconnected").
    { apply preserves_bind; [apply setPopupConnected_keeps_log|intros _; apply preserves_ret]. }
    apply preserves_ret.
Qed.

(** ** The constructor and the reachable states *)

Lemma initializeCurrentTab_keeps_log draft URL_new :
  preserves log_invariant (initializeCurrentTab draft URL_new).
Proof.
  unfold initializeCurrentTab, chrome_tabs_query_current, chrome_tabs_query_active,
    Date_now, setCurrentTab, console_error.
  apply preserves_try_catch; [|intros e; repeat keep_log_step].
  apply preserves_bind.
  { apply await_tabs_keeps_log. by intros w Hw. }
  intros [|tab rest]; repeat keep_log_step.
Qed.

Section Construction.
Variable draft : Draft.
Variable URL_new : string → Completion URL.

Lemma initializeCurrentTab_tracking w :
  ∃ w', initializeCurrentTab draft URL_new w = (Normal tt, w') ∧
        currentTab (self w') =
          match initial_tab URL_new w with
          | Some tracked => Some tracked
          | None => currentTab (self w)
          end ∧
        isWindowFocused (self w') = isWindowFocused (self w) ∧
        local w' = local w ∧ browser w' = browser w ∧
        clock w' = clock w + tabsLatency (browser w).
Proof.
  unfold initializeCurrentTab, initial_tab, active_tabs, chrome_tabs_query_current,
    chrome_tabs_query_active, await_tabs, Date_now, setCurrentTab.
  js_unfold. simpl.
  destruct (List.filter _ (openTabs (browser w))) as [|tab rest]; simpl.
  { step_debug. simpl in *. eexists. split; [done|]. split_and!; congruence. }
  destruct (tab_id tab =? 0); simpl.
  { step_debug. simpl in *. eexists. split; [done|]. split_and!; congruence. }
  destruct (truthy_string (tab_url tab)) as [url|]; simpl.
  - destruct (truthy_string (extractDomain URL_new url)) as [dom|]; simpl.
    + step_debug. simpl in *. eexists. split; [done|]. split_and!; congruence.
    + step_debug. simpl in *. eexists. split; [done|]. split_and!; congruence.
  - step_debug. simpl in *. eexists. split; [done|]. split_and!; congruence.
Qed.

Lemma TimeTracker_new_run w :
  ∃ w', TimeTracker_new draft URL_new w = (Normal tt, w') ∧
        currentTab (self w') = initial_tab URL_new w ∧
        isWindowFocused (self w') = true ∧
        local w' = local w ∧ browser w' = browser w ∧
        log_invariant w'.
Proof.
  unfold TimeTracker_new, Array_new. js_unfold. simpl.
  set (w1 := with_self _ _).
  assert (Hlog1 : log_invariant w1).
  { unfold log_invariant, current_logs, array_at. subst w1. simpl.
    rewrite lookup_insert_eq. split; [set_solver|simpl; unfold MAX_DEBUG_LOGS; lia]. }
  rewrite debug_normal.
  pose proof (debug_keeps_log draft info "TimeTracker initialized"
                (λ w, JObject [("windowFocused", JBool (isWindowFocused (self w)));
                               ("timestamp", JNumber (clock w))]) w1 Hlog1) as Hlog2.
  match goal with |- context [exec (debug ?d ?ty ?msg ?dat) w1] =>
    destruct (debug_same d ty msg dat w1) as (Hc & Hf & Hl & Hb & Hk);
    set (w2 := exec (debug d ty msg dat) w1) in * end.
  destruct (initializeCurrentTab_tracking w2) as (w' & Hrun & Hc' & Hf' & Hl' & Hb' & _).
  pose proof (initializeCurrentTab_keeps_log draft URL_new w2 Hlog2) as Hlog3.
  rewrite Hrun in *. simpl in *. exists w'. split; [done|].
  assert (Hinit : initial_tab URL_new w2 = initial_tab URL_new w).
  { unfold initial_tab, active_tabs. rewrite Hb, Hk. subst w1. done. }
  rewrite Hinit, Hc in Hc'. subst w1. simpl in *.
  split_and!; try congruence.
  by destruct (initial_tab URL_new w).
Qed.

End Construction.

(** ** Tab changes and focus *)



(** X2. A URL that parses but has an empty hostname (a file: URL, say) is
    no domain either: a tab change to it, in a focused window, leaves
    [currentTab] absent.  [extractDomain] itself returns the empty string
    for it, not null. *)
Theorem tab_change_to_empty_hostname_stops_tracking
    (draft : Draft) (URL_new : string → Completion URL) (id : Z) (w : World)
    (tab : Tab) (url : string) (urlObj : URL) :
  isWindowFocused (self w) = true →
  tab_with_id w id = Some tab →
  tab_url tab = Some url →
  url ≠ "" →
  URL_new url = Normal urlObj →
  protocol urlObj ≠ "chrome:" → protocol urlObj ≠ "chrome-extension:" →
  hostname urlObj = "" →
  extractDomain URL_new url = Some "" ∧
  currentTab (self (exec (handleTabChange draft URL_new id) w)) = None.
Proof.
  intros Hf Htab Hurl Hne Hparse Hc He Hhost.
  assert (Hdom : extractDomain URL_new url = Some "").
  { unfold extractDomain. rewrite Hparse.
    destruct (String.eqb_spec (protocol urlObj) "chrome:"); [done|].
    destruct (String.eqb_spec (protocol urlObj) "chrome-extension:"); [done|].
    simpl. by rewrite Hhost. }
  split; [done|]. unfold exec.
  destruct (handleTabChange_focused draft URL_new id w Hf) as (w' & -> & Hcur & _).
  simpl. rewrite Hcur. unfold tab_after_change. rewrite Htab, Hurl. simpl.
  destruct (String.eqb_spec url ""); [done|]. by rewrite Hdom.
Qed.

(** X3. A window gains focus.  The listener completes with
    [isWindowFocused] true.  When the window has no active tab, [currentTab]
    and the store stay as they were.  When it has one, no interval was open,
    and the URL of that tab has a domain, the interval of that tab is opened
    at the time the second call into chrome.tabs answered, and nothing is
    written to the store. *)
Theorem focus_gained_resumes_on_active_tab
    (draft : Draft) (URL_new : string → Completion URL) (windowId : Z) (w : World) :
  windowId ≠ WINDOW_ID_NONE →
  let w' := exec (onFocusChanged draft URL_new windowId) w in
  completion (onFocusChanged draft URL_new windowId) w = Normal tt ∧
  isWindowFocused (self w') = true ∧
  (active_tabs w windowId = [] →
   currentTab (self w') = currentTab (self w) ∧ local w' = local w) ∧
  (∀ tab rest url dom,
     active_tabs w windowId = tab :: rest →
     tab_with_id w (tab_id tab) = Some tab →
     truthy_string (tab_url tab) = Some url →
     truthy_string (extractDomain URL_new url) = Some dom →
     currentTab (self w) = None →
     currentTab (self w') =
       Some {| tabId := tab_id tab; tabDomain := dom;
               startTime := clock w + tabsLatency (browser w) + tabsLatency (browser w) |} ∧
     local w' = local w).
Proof.
  intros Hwin w'. subst w'. unfold exec, completion.
  destruct (onFocusChanged_gained_run draft URL_new windowId w Hwin)
    as (w1 & w' & -> & (Hc1 & Hf1 & Hl1 & Hb1 & Hk1) & Hcase). simpl.
  split; [done|]. split_and!.
  - destruct (active_tabs w windowId) as [|tab rest].
    + destruct Hcase as (_ & Hf & _). congruence.
    + unfold changed_tab in Hcase. rewrite Hf1 in Hcase. by destruct Hcase as (_ & Hf & _).
  - intros Hnone. rewrite Hnone in Hcase. destruct Hcase as (Hc & _ & Hl & _).
    split; congruence.
  - intros tab rest url dom Hact Htab Hurl Hdom Hcur. rewrite Hact in Hcase.
    unfold changed_tab in Hcase. rewrite Hf1 in Hcase.
    destruct Hcase as (Hc & _ & Hl & _). split.
    + rewrite Hc. unfold tab_after_change, tab_with_id in *. rewrite Hb1, Htab, Hurl, Hdom.
      by rewrite Hk1.
    + rewrite Hl. unfold store_after_record. rewrite Hc1, Hcur. done.
Qed.

Lemma focus_gained_resumes_on_active_tab_witness :
  let w := at_time 9000 (exec (onFocusChanged Instrumented sample_URL_new WINDOW_ID_NONE)
                              (at_time 1500 (started Instrumented))) in
  let w' := exec (onFocusChanged Instrumented sample_URL_new 1) w in
  isWindowFocused (self w') = true ∧
  currentTab (self w') = Some {| tabId := 1; tabDomain := "example.com"; startTime := 9000 |} ∧
  local w' = local w.
Proof.
  intros w.
  destruct (focus_gained_resumes_on_active_tab Instrumented sample_URL_new 1 w)
    as (_ & Hf & _ & Hopen).
  - vm_compute. discriminate.
  - split; [exact Hf|].
    refine (Hopen {| tab_id := 1; tab_windowId := 1; tab_active := true;
                     tab_url := Some "https://example.com/index.html" |}
                  [] "https://example.com/index.html" "example.com" _ _ _ _ _);
      vm_compute; reflexivity.
Defined.

Lemma tab_change_to_empty_hostname_stops_tracking_witness :
  let w := navigated 4 "file:///notes.txt" (at_time 1500 (started Instrumented)) in
  extractDomain sample_URL_new "file:///notes.txt" = Some "" ∧
  currentTab (self (exec (handleTabChange Instrumented sample_URL_new 4) w)) = None.
Proof.
  intros w.
  apply (tab_change_to_empty_hostname_stops_tracking Instrumented sample_URL_new 4 w
           {| tab_id := 4; tab_windowId := 1; tab_active := false;
              tab_url := Some "file:///notes.txt" |}
           "file:///notes.txt" {| protocol := "file:"; hostname := "" |}).
  - vm_compute. reflexivity.
  - vm_compute. reflexivity.
  - reflexivity.
  - discriminate.
  - vm_compute. reflexivity.
  - discriminate.
  - discriminate.
  - reflexivity.
Defined.

(** ** Sequences of events *)

Lemma run_events_app draft URL_new trace1 trace2 w :
  run_events draft URL_new (trace1 ++ trace2) w
  = run_events draft URL_new trace2 (run_events draft URL_new trace1 w).
Proof. revert w. induction trace1 as [|a rest IH]; intros w; simpl; [done|apply IH]. Qed.

(** X4. While the window is unfocused, nothing but a focus event can start
    or stop tracking: after any sequence of tab activations, tab updates and
    popup messages, arriving at any times in any state of the browser, the
    window is still unfocused and [currentTab] and the store are what they
    were. *)
Theorem unfocused_period_changes_nothing
    (draft : Draft) (URL_new : string → Completion URL) (trace : list Arrival) (w : World) :
  isWindowFocused (self w) = false →
  Forall (λ a, is_focus_change (arrival_event a) = false) trace →
  let w' := run_events draft URL_new trace w in
  isWindowFocused (self w') = false ∧
  currentTab (self w') = currentTab (self w) ∧
  local w' = local w.
Proof.
  intros Hf Hall. revert w Hf. induction Hall as [|a rest Ha _ IH]; intros w Hf; simpl.
  { done. }
  destruct (arrive_same a w) as (Hac & Haf & _ & _ & Hal).
  assert (Hf0 : isWindowFocused (self (arrive a w)) = false) by congruence.
  assert (Hstep : ∃ w1, exec (deliver draft URL_new (arrival_event a)) (arrive a w) = w1 ∧
                        isWindowFocused (self w1) = false ∧
                        currentTab (self w1) = currentTab (self w) ∧ local w1 = local w).
  { unfold exec. destruct (arrival_event a) as [id wid|id ci tab|wid|action]; simpl in *.
    - destruct (onActivated_unfocused draft URL_new id wid (arrive a w) Hf0)
        as (w1 & -> & Hc & Hf1 & Hl & _).
      exists w1. simpl in *. split_and!; congruence.
    - rewrite onUpdated_unfocused by done. by exists (arrive a w).
    - discriminate.
    - js_unfold. destruct (onMessage_run draft action (arrive a w)) as (r & w1 & -> & Hc & Hf1 & Hl & _).
      exists w1. simpl in *. split_and!; congruence. }
  destruct Hstep as (w1 & -> & Hf1 & Hc1 & Hl1).
  destruct (IH w1 Hf1) as (Hf' & Hc' & Hl'). split_and!; congruence.
Qed.

Lemma unfocused_period_changes_nothing_witness :
  let w := exec (onFocusChanged Minimal sample_URL_new WINDOW_ID_NONE)
             (at_time 2500 (started Minimal)) in
  let trace :=
    [ {| arrival_browser := sample_browser; arrival_time := 3000;
         arrival_event := TabActivated 2 1 |};
      {| arrival_browser := sample_browser; arrival_time := 9000;
         arrival_event := MessageReceived "getTodayData" |};
      {| arrival_browser := sample_browser; arrival_time := 12000;
         arrival_event := TabActivated 1 1 |} ] in
  let w' := run_events Minimal sample_URL_new trace w in
  isWindowFocused (self w') = false ∧ currentTab (self w') = None ∧
  local w' = committed "2025-07-04" "example.com" 2500 ∅.
Proof.
  intros w trace.
  destruct (unfocused_period_changes_nothing Minimal sample_URL_new trace w) as (Hf & Hc & Hl).
  - vm_compute. reflexivity.
  - repeat constructor.
  - split_and!; [exact Hf | rewrite Hc; vm_compute; reflexivity | rewrite Hl; compute_done].
Defined.

(** X5. An interval is open only while the window counts as focused:
    [isWindowFocused = false] implies [currentTab = null] in every state that
    the tracker reaches from its construction through a sequence of events
    of which none arrives while an earlier call is still awaiting. *)
Theorem interval_only_while_focused
    (draft : Draft) (URL_new : string → Completion URL) (trace : list Arrival) (w0 : World) :
  let constructed := exec (TimeTracker_new draft URL_new) w0 in
  arrives_settled draft URL_new trace constructed = true →
  let w := run_events draft URL_new trace constructed in
  isWindowFocused (self w) = false → currentTab (self w) = None.
Proof.
  intros constructed _ w. subst w constructed.
  assert (Hstart : focus_invariant (exec (TimeTracker_new draft URL_new) w0)).
  { unfold exec. destruct (TimeTracker_new_run draft URL_new w0) as (w1 & -> & _ & Hf & _).
    unfold focus_invariant. simpl. congruence. }
  revert Hstart. generalize (exec (TimeTracker_new draft URL_new) w0).
  induction trace as [|a rest IH]; intros w Hinv; simpl; [exact Hinv|].
  apply IH. apply deliver_focus_invariant.
  destruct (arrive_same a w) as (Hac & Haf & _).
  unfold focus_invariant in *. rewrite Hac, Haf. exact Hinv.
Qed.

Lemma interval_only_while_focused_witness :
  let trace :=
    [ {| arrival_browser := slow_browser; arrival_time := 2500;
         arrival_event := TabActivated 2 1 |};
      {| arrival_browser := slow_browser; arrival_time := 6000;
         arrival_event := WindowFocusChanged WINDOW_ID_NONE |};
      {| arrival_browser := slow_browser; arrival_time := 7000;
         arrival_event := TabActivated 1 1 |} ] in
  currentTab (self (run_events Instrumented sample_URL_new trace
                      (exec (TimeTracker_new Instrumented sample_URL_new)
                            (blank slow_browser ∅)))) = None.
Proof.
  intros trace.
  apply (interval_only_while_focused Instrumented sample_URL_new trace (blank slow_browser ∅)).
  - vm_compute. reflexivity.
  - vm_compute. reflexivity.
Defined.

(** A focus loss that arrives 100 ms after a tab activation, while the call
    into chrome.tabs takes 150 ms, is not such a sequence: the activation is
    still awaiting. *)
Example overlapping_events_are_not_settled :
  let trace :=
    [ {| arrival_browser := slow_browser; arrival_time := 2500;
         arrival_event := TabActivated 2 1 |};
      {| arrival_browser := slow_browser; arrival_time := 2600;
         arrival_event := WindowFocusChanged WINDOW_ID_NONE |} ] in
  arrives_settled Instrumented sample_URL_new trace
    (exec (TimeTracker_new Instrumented sample_URL_new) (blank slow_browser ∅)) = false.
Proof. vm_compute. reflexivity. Qed.

(** X6. One event, delivered when no commit is in flight, lowers no stored
    total.  Its listener commits at most once: the store afterwards is the
    store before, or the store before with a time of at least the threshold
    added to the domain of the interval that was open.  For a domain that
    names no member of Object.prototype that is what the engine's read,
    [+] and write come to. *)
Theorem event_lowers_no_stored_total
    (draft : Draft) (URL_new : string → Completion URL) (e : Event) (w : World) :
  (∀ tracked, currentTab (self w) = Some tracked → own_property_name (tabDomain tracked)) →
  let w' := exec (deliver draft URL_new e) w in
  (as_objects (local w') = as_objects (local w) ∨
   ∃ tracked spent,
     currentTab (self w) = Some tracked ∧ MIN_DURATION_MS draft ≤ spent ∧
     as_objects (local w')
     = read_accumulate_write (today w) (tabDomain tracked) spent (as_objects (local w))) ∧
  ∀ key dom, total (local w) key dom ≤ total (local w') key dom.
Proof.
  intros Hown w'. split.
  - destruct (deliver_commits_once draft URL_new e w)
      as [Hl|(tracked & spent & Hc & Hmin & Hl)]; fold w' in Hl.
    + left. by rewrite Hl.
    + right. exists tracked, spent. split_and!; [done..|].
      rewrite Hl. apply committed_as_objects. by apply Hown.
  - apply deliver_store_le.
Qed.

Lemma event_lowers_no_stored_total_witness :
  let w := at_time 2500 (started Minimal) in
  let w' := exec (deliver Minimal sample_URL_new (WindowFocusChanged WINDOW_ID_NONE)) w in
  total (local w) "2025-07-04" "example.com" ≤ total (local w') "2025-07-04" "example.com" ∧
  total (local w') "2025-07-04" "example.com" = 2500.
Proof.
  intros w w'. split.
  - apply (event_lowers_no_stored_total Minimal sample_URL_new
             (WindowFocusChanged WINDOW_ID_NONE) w).
    intros tracked Hc. vm_compute in Hc. injection Hc as <-. simpl.
    compute_done.
  - vm_compute. reflexivity.
Defined.

(** X7. In every state that the first draft reaches from its construction
    the debug log is an allocated array of at most 100 entries. *)
Theorem debug_log_stays_bounded
    (draft : Draft) (URL_new : string → Completion URL) (trace : list Arrival) (w0 : World) :
  let w := run_events draft URL_new trace (exec (TimeTracker_new draft URL_new) w0) in
  debugLogs (self w) ∈ dom (arrays w) ∧ (length (current_logs w) ≤ 100)%nat.
Proof.
  intros w. subst w. change (log_invariant
    (run_events draft URL_new trace (exec (TimeTracker_new draft URL_new) w0))).
  assert (Hstart : log_invariant (exec (TimeTracker_new draft URL_new) w0)).
  { unfold exec. by destruct (TimeTracker_new_run draft URL_new w0) as (w1 & -> & _ & _ & _ & _ & ?). }
  revert Hstart. generalize (exec (TimeTracker_new draft URL_new) w0).
  induction trace as [|a rest IH]; intros w Hinv; simpl; [exact Hinv|].
  apply IH. apply deliver_keeps_log.
  destruct (arrive_same a w) as (_ & _ & Had & Haa & _).
  eapply log_invariant_same; [| |exact Hinv]; done.
Qed.

(** X8. No listener throws and no promise that a listener leaves behind is
    rejected: in every state of the tracker and of the browser (missing tabs,
    a store that rejects, a popup that is gone) each of the four listeners
    completes normally, and so do [handleTabChange], [addTimeToStorage] and
    [initializeCurrentTab], whose promises nobody awaits. *)
Theorem listeners_never_throw
    (draft : Draft) (URL_new : string → Completion URL) (w : World) :
  (∀ e, completion (deliver draft URL_new e) w = Normal tt) ∧
  (∀ id, completion (handleTabChange draft URL_new id) w = Normal tt) ∧
  (∀ dom spent, completion (addTimeToStorage dom spent) w = Normal tt) ∧
  completion (initializeCurrentTab draft URL_new) w = Normal tt.
Proof.
  unfold completion. split_and!.
  - intros e. apply deliver_normal.
  - intros id. by destruct (handleTabChange_run draft URL_new id w) as (w' & -> & _).
  - intros dom spent. by destruct (addTimeToStorage_run dom spent w) as (w' & -> & _).
  - by destruct (initializeCurrentTab_tracking draft URL_new w) as (w' & -> & _).
Qed.

(** ** More on the store *)

(** X9. A commit that the store rejects is lost without a trace in the
    store: when the read or the write fails, [addTimeToStorage] completes
    normally, the store is what it was, and the failure is the newest line of
    the console, an error with the text of the catch block. *)
Theorem failed_commit_leaves_store_unchanged (dom : string) (spent : Z) (w : World) :
  ¬ storage_healthy (browser w) →
  let w' := exec (addTimeToStorage dom spent) w in
  completion (addTimeToStorage dom spent) w = Normal tt ∧
  local w' = local w ∧
  ∃ reason, head (console w') =
    Some {| level := LevelError; text := "Error saving to storage:"; arg := JString reason |} ∧
    (storageGetFault (browser w) = Some reason ∨ storageSetFault (browser w) = Some reason).
Proof.
  intros Hbad w'. subst w'. unfold exec, completion.
  unfold addTimeToStorage, chrome_storage_local_get, chrome_storage_local_set, console_error.
  js_unfold. rewrite getTodayKey_run. simpl.
  destruct (storageGetFault (browser w)) as [e|] eqn:Hget; simpl; [eauto 10|].
  destruct (storageSetFault (browser w)) as [e|] eqn:Hset; simpl; [eauto 10|].
  destruct Hbad. by split.
Qed.

Lemma failed_commit_leaves_store_unchanged_witness :
  let w := blank broken_storage_browser {[ "2025-07-04" := {[ "example.com" := 2500 ]} ]} in
  local (exec (addTimeToStorage "example.com" 4000) w) = local w.
Proof.
  intros w.
  destruct (failed_commit_leaves_store_unchanged "example.com" 4000 w) as (_ & Hl & _).
  - vm_compute. intros [H _]. discriminate H.
  - exact Hl.
Defined.

Lemma committed_twice key dom a b store :
  committed key dom b (committed key dom a store) = committed key dom (a + b) store.
Proof.
  unfold committed. rewrite !lookup_insert_eq. simpl.
  rewrite !lookup_insert_eq, !insert_insert_eq. simpl. do 2 f_equal. lia.
Qed.

Lemma committed_commute key dom dom' a b store :
  dom ≠ dom' →
  committed key dom' b (committed key dom a store)
  = committed key dom a (committed key dom' b store).
Proof.
  intros Hne. unfold committed. rewrite !lookup_insert_eq. simpl.
  rewrite !insert_insert_eq. rewrite !lookup_insert_ne by done.
  f_equal. by apply insert_insert_ne.
Qed.

(** X10. Commits add up.  With a working store and for domains that name
    no member of Object.prototype, committing [a] and then [b] to one domain
    leaves the store that one commit of [a + b] leaves, and commits to two
    different domains give the same store in either order.  This holds of
    the day objects as the engine reads and writes them, of which the store
    of the model is the image. *)
Theorem commits_add_up (dom dom' : string) (a b : Z) (w : World) :
  storage_healthy (browser w) →
  own_property_name dom → own_property_name dom' →
  let day := today w in
  let store := as_objects (local w) in
  read_accumulate_write day dom b (read_accumulate_write day dom a store)
  = read_accumulate_write day dom (a + b) store ∧
  (dom ≠ dom' →
   read_accumulate_write day dom' b (read_accumulate_write day dom a store)
   = read_accumulate_write day dom a (read_accumulate_write day dom' b store)) ∧
  as_objects (local (exec (addTimeToStorage dom b) (exec (addTimeToStorage dom a) w)))
  = read_accumulate_write day dom b (read_accumulate_write day dom a store) ∧
  local (exec (addTimeToStorage dom b) (exec (addTimeToStorage dom a) w))
  = local (exec (addTimeToStorage dom (a + b)) w) ∧
  (dom ≠ dom' →
   local (exec (addTimeToStorage dom' b) (exec (addTimeToStorage dom a) w))
   = local (exec (addTimeToStorage dom a) (exec (addTimeToStorage dom' b) w))).
Proof.
  intros Hok Hdom Hdom' day store. subst day store.
  rewrite <- !committed_as_objects by done.
  unfold exec.
  rewrite !(addTimeToStorage_healthy _ _ w) by done. simpl.
  rewrite !addTimeToStorage_healthy by done. simpl.
  split_and!.
  - by rewrite committed_twice.
  - intros Hne. by rewrite committed_commute.
  - done.
  - apply committed_twice.
  - intros Hne. by apply committed_commute.
Qed.

Lemma commits_add_up_witness :
  let w := started Instrumented in
  total (local (exec (addTimeToStorage "example.com" 3000)
                  (exec (addTimeToStorage "example.com" 1500) w)))
        "2025-07-04" "example.com" = 4500.
Proof.
  intros w.
  destruct (commits_add_up "example.com" "other.com" 1500 3000 w) as (_ & _ & _ & Hsum & _).
  - split; vm_compute; reflexivity.
  - compute_done.
  - compute_done.
  - rewrite Hsum. vm_compute. reflexivity.
Defined.

(** X11. What is committed is listed: with a working store and for a domain
    that names no member of Object.prototype, the store after
    [addTimeToStorage dom spent] is what the engine's read, [+] and write
    leave, and right after it the list of [getTodayData] has the pair of
    [dom] with its previous total plus [spent]; reading leaves the world as
    it is. *)
Theorem committed_time_is_listed (dom : string) (spent : Z) (w : World) :
  storage_healthy (browser w) →
  own_property_name dom →
  let w' := exec (addTimeToStorage dom spent) w in
  as_objects (local w')
  = read_accumulate_write (today w) dom spent (as_objects (local w)) ∧
  ∃ l, getTodayData w' = (Normal l, w') ∧
       {| domain := dom; timeSpent := total (local w) (today w) dom + spent |} ∈ l.
Proof.
  intros Hok Hown w'. split; [by apply addTimeToStorage_on_own_property_names|].
  subst w'. unfold exec.
  rewrite addTimeToStorage_healthy by done. simpl.
  set (w' := with_local _ w).
  assert (Hget : storageGetFault (browser w') = None) by apply Hok.
  rewrite (getTodayData_read_ok w' Hget). eexists. split; [done|].
  rewrite Array_sort_Permutation. apply elem_of_entries.
  replace (today w') with (today w) by done.
  subst w'. simpl. pose proof (total_committed_same (today w) dom spent (local w)) as H.
  destruct (committed (today w) dom spent (local w) !! today w) as [daily|]; simpl in *; done.
Qed.

Lemma committed_time_is_listed_witness :
  let w := exec (addTimeToStorage "example.com" 2500) (started Minimal) in
  ∃ l, getTodayData w = (Normal l, w) ∧
       {| domain := "example.com"; timeSpent := 2500 |} ∈ l.
Proof.
  intros w.
  destruct (committed_time_is_listed "example.com" 2500 (started Minimal))
    as (_ & l & Hrun & Hin).
  - split; vm_compute; reflexivity.
  - compute_done.
  - exists l. split; [exact Hrun|exact Hin].
Defined.

Lemma read_accumulate_write_other_day key key' dom spent (store : gmap string PlainObject) :
  key' ≠ key → read_accumulate_write key dom spent store !! key' = store !! key'.
Proof. intros Hne. unfold read_accumulate_write. by rewrite lookup_insert_ne. Qed.

(** X20. On a domain that names no member of Object.prototype the commit
    adds and frames, in the engine as in the model: with a working store the
    day objects after [addTimeToStorage dom spent] are those that the
    engine's read, [+] and write leave; the value for today and [dom] is the
    number that is its previous total (0 when there was none) plus [spent];
    every other property of today's object and every other day are as
    before. *)
Theorem commit_adds_on_own_property_names (dom : string) (spent : Z) (w : World) :
  storage_healthy (browser w) →
  own_property_name dom →
  let before := as_objects (local w) in
  let after := read_accumulate_write (today w) dom spent before in
  as_objects (local (exec (addTimeToStorage dom spent) w)) = after ∧
  after !! today w ≫= (λ daily, daily !! dom)
    = Some (StoredNumber (total (local w) (today w) dom + spent)) ∧
  (∀ dom', dom' ≠ dom →
     after !! today w ≫= (λ daily, daily !! dom')
     = before !! today w ≫= (λ daily, daily !! dom')) ∧
  (∀ key, key ≠ today w → after !! key = before !! key).
Proof.
  intros Hok Hown before after. subst before after.
  split; [by apply addTimeToStorage_on_own_property_names|].
  rewrite <- committed_as_objects by done.
  unfold as_objects. split_and!.
  - rewrite lookup_fmap.
    pose proof (total_committed_same (today w) dom spent (local w)) as Hsame.
    destruct (committed (today w) dom spent (local w) !! today w) as [daily|];
      simpl in *; [|done].
    rewrite (lookup_fmap StoredNumber daily dom), Hsame. done.
  - intros dom' Hne. rewrite !lookup_fmap.
    pose proof (committed_other_domain (today w) dom dom' spent (local w) Hne) as Hother.
    destruct (committed (today w) dom spent (local w) !! today w) as [daily|];
      destruct (local w !! today w) as [daily0|]; simpl in *.
    + by rewrite (lookup_fmap StoredNumber daily dom'),
        (lookup_fmap StoredNumber daily0 dom'), Hother.
    + by rewrite (lookup_fmap StoredNumber daily dom'), Hother.
    + by rewrite (lookup_fmap StoredNumber daily0 dom'), <- Hother.
    + done.
  - intros key Hne. rewrite !lookup_fmap. by rewrite committed_other_day.
Qed.

Lemma commit_adds_on_own_property_names_witness :
  let w := at_time 2500 (started Minimal) in
  let after := as_objects (local (exec (addTimeToStorage "example.com" 2500) w)) in
  after !! "2025-07-04" ≫= (λ daily, daily !! "example.com") = Some (StoredNumber 2500) ∧
  after !! "2025-07-04" ≫= (λ daily, daily !! "constructor") = None.
Proof.
  intros w after.
  destruct (commit_adds_on_own_property_names "example.com" 2500 w)
    as (Hafter & Hsame & Hdom & _).
  - split; vm_compute; reflexivity.
  - compute_done.
  - subst after. rewrite Hafter. split.
    + exact Hsame.
    + refine (eq_trans (Hdom "constructor" _) _); [discriminate|compute_done].
Defined.

(** X12. Reading is idempotent: [getTodayData] never changes the tracker,
    the heap or the store, and a second call right after the first completes
    with the same list, whether the store answers or rejects. *)
Theorem getTodayData_is_idempotent (w : World) :
  let w' := exec getTodayData w in
  self w' = self w ∧ arrays w' = arrays w ∧ local w' = local w ∧
  completion getTodayData w' = completion getTodayData w.
Proof.
  intros w'. subst w'. unfold exec, completion.
  destruct (storageGetFault (browser w)) as [e|] eqn:Hget.
  - rewrite (getTodayData_read_fails w e Hget). simpl.
    rewrite (getTodayData_read_fails _ e); [done|]. by simpl.
  - rewrite (getTodayData_read_ok w Hget). simpl.
    by rewrite (getTodayData_read_ok w Hget).
Qed.

(** ** The popup connection *)

Lemma addDebugLog_broadcast ty msg dat w :
  ∃ w', addDebugLog ty msg dat w = (Normal tt, w') ∧
        browser w' = browser w ∧
        popupConnected (self w') = popupConnected (self w) && negb (invalidated (browser w)) ∧
        outbox w' =
          (if popupConnected (self w) && delivering (browser w)
           then {| timestamp := clock w; message := msg; type := ty; data := dat |} :: outbox w
           else outbox w) ∧
        reactions w' =
          reactions w ++
          (if popupConnected (self w) && negb (delivering (browser w))
              && negb (invalidated (browser w))
           then [ResetPopupConnected] else []).
Proof.
  unfold addDebugLog, Date_now, Array_unshift, Array_length, Array_slice0, Array_new,
    console_log, broadcastLogEntry, chrome_runtime_sendMessage, promise_catch,
    setPopupConnectedField, delivering, invalidated.
  js_unfold. simpl.
  destruct (decide _); simpl;
    destruct (popupConnected (self w)) eqn:Hp; simpl;
    destruct (messaging (browser w)) eqn:Hm; simpl;
    (eexists; split; [reflexivity|]); simpl; rewrite ?Hp, ?Hm, ?app_nil_r; done.
Qed.

Lemma log_call_broadcast c w :
  ∃ w', log_call c w = (Normal tt, w') ∧
        browser w' = browser w ∧
        popupConnected (self w') = popupConnected (self w) && negb (invalidated (browser w)) ∧
        outbox w' =
          (if popupConnected (self w) && delivering (browser w)
           then entry_of c :: outbox w else outbox w) ∧
        (reactions w' = [] ↔
         reactions w = [] ∧
         popupConnected (self w) && negb (delivering (browser w))
           && negb (invalidated (browser w)) = false).
Proof.
  unfold log_call. js_unfold. simpl.
  destruct (addDebugLog_broadcast (call_type c) (call_message c) (call_data c)
              (with_clock (call_time c) w)) as (w1 & -> & Hb & Hp & Ho & Hr).
  exists w1. simpl in *. split_and!; try done. rewrite Hr.
  destruct (_ && _ && _); simpl.
  - split; [intros H; by apply app_eq_nil in H as [_ H]|by intros [_ ?]].
  - rewrite app_nil_r. split; [done|by intros [? _]].
Qed.

Lemma log_calls_broadcast calls w :
  let w' := (log_calls calls w).2 in
  let connected := popupConnected (self w) in
  outbox w' =
    (if connected && delivering (browser w) then rev (entry_of <$> calls) else [])
      ++ outbox w ∧
  (calls ≠ [] →
   popupConnected (self w') = connected && negb (invalidated (browser w)) ∧
   (reactions w' = [] ↔
    reactions w = [] ∧
    connected && negb (delivering (browser w)) && negb (invalidated (browser w)) = false)).
Proof.
  revert w. induction calls as [|c rest IH]; intros w; simpl.
  { split; [by destruct (_ && _)|done]. }
  js_unfold.
  destruct (log_call_broadcast c w) as (w1 & -> & Hb & Hp & Ho & Hr). simpl.
  destruct (IH w1) as (IHo & IHrest). rewrite Hb, Hp in IHo, IHrest.
  unfold delivering, invalidated in *.
  split.
  - rewrite IHo, Ho.
    destruct (popupConnected (self w)); destruct (messaging (browser w)); simpl; try done.
    by rewrite <- app_assoc.
  - intros _. destruct rest as [|c' rest'].
    + split; [exact Hp|exact Hr].
    + destruct IHrest as [IHp IHr]; [done|]. rewrite IHp, IHr, Hr.
      destruct (popupConnected (self w)); destruct (messaging (browser w)); simpl;
        (split; [done|]); tauto.
Qed.

(** X13. Which log entries reach the popup, and when a failed send
    disconnects it.  Over any sequence of [addDebugLog] calls in one state of
    the browser, the entries are delivered exactly when [popupConnected] was
    true and [sendMessage] succeeds, and then all of them are, newest first.
    A send that throws clears [popupConnected] at once.  A send whose promise
    is rejected does not: when the calls return the flag is still what it
    was, and it is false only once the queued reactions have run. *)
Theorem log_entries_sent_only_while_connected (calls : list LogCall) (w : World) :
  let w' := exec (log_calls calls) w in
  let live := popupConnected (self w) && delivering (browser w) in
  outbox w' = (if live then rev (entry_of <$> calls) else []) ++ outbox w ∧
  (calls ≠ [] →
   popupConnected (self w') = popupConnected (self w) && negb (invalidated (browser w))) ∧
  (calls ≠ [] → reactions w = [] → popupConnected (self (settle w')) = live).
Proof.
  intros w' live. subst w' live. unfold exec.
  destruct (log_calls_broadcast calls w) as [Hout Hrest].
  split_and!; [exact Hout|by intros Hne; apply Hrest|].
  intros Hne Hnone. destruct (Hrest Hne) as [Hp Hr].
  rewrite settle_popupConnected.
  destruct (reactions (log_calls calls w).2) as [|r rs].
  - apply proj1 in Hr. destruct (Hr eq_refl) as [_ Hq]. rewrite Hp.
    unfold delivering, invalidated in *.
    destruct (popupConnected (self w)); destruct (messaging (browser w)); done.
  - unfold delivering, invalidated in *.
    destruct (popupConnected (self w)); destruct (messaging (browser w)); simpl in *;
      try done; (assert (r :: rs = []) by (by apply Hr); done).
Qed.

Lemma log_entries_sent_only_while_connected_witness :
  let w := with_self (with_popupConnected true (self (started Instrumented)))
             (started Instrumented) in
  let w' := exec (log_calls [sample_call 10; sample_call 20]) w in
  popupConnected (self w') = true ∧ popupConnected (self (settle w')) = false ∧
  outbox w' = [].
Proof.
  intros w.
  destruct (log_entries_sent_only_while_connected [sample_call 10; sample_call 20] w)
    as (Hout & Hflag & Hsettled).
  split_and!.
  - rewrite Hflag; [vm_compute; reflexivity|discriminate].
  - rewrite Hsettled; [vm_compute; reflexivity|discriminate|vm_compute; reflexivity].
  - rewrite Hout. vm_compute. reflexivity.
Defined.

(** X14. [setPopupConnected] leaves the tracking state alone and logs the
    change as the newest debug entry.  Disconnecting sends nothing.
    Connecting sends that entry to the popup.  When the send throws, the call
    returns with [popupConnected] false again; when its promise is rejected,
    the call returns with [popupConnected] true and the flag is false only
    once the queued reaction has run.  Once it has, the connection holds
    exactly when the popup could be reached. *)
Theorem setPopupConnected_holds_only_if_reachable (connected : bool) (w : World) :
  let w' := exec (setPopupConnected connected) w in
  completion (setPopupConnected connected) w = Normal tt ∧
  popupConnected (self w') = connected && negb (invalidated (browser w)) ∧
  (reactions w = [] →
   popupConnected (self (settle w')) = connected && delivering (browser w)) ∧
  same_tracking w w' ∧
  (∃ entry, head (current_logs w') = Some entry ∧ type entry = info ∧
            message entry = (if connected then "Debug popup connected"
                             else "Debug popup disconnected") ∧
            outbox w' = if connected && delivering (browser w)
                        then entry :: outbox w else outbox w).
Proof.
  intros w'. subst w'. unfold exec, completion.
  unfold setPopupConnected, setPopupConnectedField, Date_now. js_unfold. simpl.
  destruct connected;
    match goal with |- context [addDebugLog ?ty ?msg ?dat ?w0] =>
      destruct (addDebugLog_run ty msg dat w0) as (w' & Hrun & Hs & Ha & _);
      destruct (addDebugLog_broadcast ty msg dat w0) as (w'' & Hrun' & _ & Hp & Ho & Hr);
      rewrite Hrun in *; simplify_eq
    end; simpl in *.
  - split_and!; try done.
    + intros Hnone. pose proof (settle_popupConnected w'') as Hsettle.
      unfold settle in Hsettle. simpl in Hsettle. rewrite Hsettle, Hr, Hnone. simpl.
      unfold delivering, invalidated in *.
      destruct (messaging (browser w)); simpl; done.
    + eexists. unfold current_logs. rewrite Ha. simpl. split_and!; try done.
  - split_and!; try done.
    + intros Hnone. pose proof (settle_popupConnected w'') as Hsettle.
      unfold settle in Hsettle. simpl in Hsettle. rewrite Hsettle, Hr, Hnone. simpl. done.
    + eexists. unfold current_logs. rewrite Ha. simpl. split_and!; try done.
Qed.

Lemma setPopupConnected_holds_only_if_reachable_witness :
  let w' := exec (setPopupConnected true) (started Instrumented) in
  popupConnected (self w') = true ∧ popupConnected (self (settle w')) = false.
Proof.
  intros w'. subst w'.
  destruct (setPopupConnected_holds_only_if_reachable true (started Instrumented))
    as (_ & Hreturn & Hsettled & _).
  split.
  - rewrite Hreturn. vm_compute. reflexivity.
  - rewrite Hsettled; vm_compute; reflexivity.
Defined.

(** X15. The message listener answers without touching the tracking state
    or the store.  [getTodayData] is answered with the list of the method in
    both drafts.  The second draft handles nothing else; in the first draft a
    message other than its four actions gets no response and changes
    nothing. *)
Theorem onMessage_never_disturbs_tracking (draft : Draft) (action : string) (w : World) :
  ∃ response w',
    onMessage draft action w = (Normal response, w') ∧
    same_tracking w w' ∧
    (action = "getTodayData" →
     ∃ l, response = TodayData l ∧ completion getTodayData w = Normal l) ∧
    (action ≠ "getTodayData" → draft = Minimal → response = NoResponse ∧ w' = w) ∧
    (action ∉ ["getTodayData"; "getDebugLogs"; "popupConnected"; "popupDisconnected"] →
     response = NoResponse ∧ w' = w).
Proof.
  unfold onMessage, completion. js_unfold.
  destruct (String.eqb_spec action "getTodayData") as [->|Hne1].
  { destruct (getTodayData_frame w) as (l & w' & -> & Hs & _).
    eexists _, _. split; [done|]. split; [done|]. split_and!.
    - intros _. eauto.
    - done.
    - intros Hnot. exfalso. apply Hnot. set_solver. }
  destruct draft.
  - destruct (String.eqb_spec action "getDebugLogs") as [->|Hne2].
    { unfold getDebugLogs, Array_spread, Array_new. js_unfold. simpl.
      eexists _, _. split; [done|]. split; [by unfold same_tracking|].
      split_and!; try done. intros Hnot. exfalso. apply Hnot. set_solver. }
    destruct (String.eqb_spec action "popupConnected") as [->|Hne3].
    { destruct (setPopupConnected_run true w) as (w' & -> & Hs).
      eexists _, _. split; [done|]. split; [done|].
      split_and!; try done. intros Hnot. exfalso. apply Hnot. set_solver. }
    destruct (String.eqb_spec action "popupDisconnected") as [->|Hne4].
    { destruct (setPopupConnected_run false w) as (w' & -> & Hs).
      eexists _, _. split; [done|]. split; [done|].
      split_and!; try done. intros Hnot. exfalso. apply Hnot. set_solver. }
    eexists _, w. split; [done|]. split; [apply same_tracking_refl|]. split_and!; done.
  - eexists _, w. split; [done|]. split; [apply same_tracking_refl|]. split_and!; done.
Qed.

Lemma onMessage_never_disturbs_tracking_witness :
  ∃ w', onMessage Instrumented "ping" (started Instrumented) = (Normal NoResponse, w') ∧
        w' = started Instrumented.
Proof.
  destruct (onMessage_never_disturbs_tracking Instrumented "ping" (started Instrumented))
    as (response & w' & Hrun & _ & _ & _ & Hother).
  destruct Hother as [-> ->].
  - intros Hin. repeat (apply elem_of_cons in Hin as [Hin|Hin]; [discriminate Hin|]).
    by apply elem_of_nil in Hin.
  - exists (started Instrumented). split; [exact Hrun|reflexivity].
Defined.

(** X16. [new TimeTracker()] completes normally and leaves the store and
    the browser alone.  The tracker starts focused with an allocated log of
    at most 100 entries, and tracks the first active tab of the current window
    from the time the query answered, provided that tab has a non-zero id and
    a URL with a domain; otherwise it tracks nothing. *)
Theorem constructor_tracks_the_active_tab
    (draft : Draft) (URL_new : string → Completion URL) (w : World) :
  let w' := exec (TimeTracker_new draft URL_new) w in
  completion (TimeTracker_new draft URL_new) w = Normal tt ∧
  isWindowFocused (self w') = true ∧
  local w' = local w ∧
  debugLogs (self w') ∈ dom (arrays w') ∧ (length (current_logs w') ≤ 100)%nat ∧
  (active_tabs w (currentWindowId (browser w)) = [] → currentTab (self w') = None) ∧
  (∀ tab rest,
     active_tabs w (currentWindowId (browser w)) = tab :: rest →
     (tab_id tab = 0 → currentTab (self w') = None) ∧
     (truthy_string (tab_url tab) = None → currentTab (self w') = None) ∧
     (∀ url, tab_id tab ≠ 0 → truthy_string (tab_url tab) = Some url →
        currentTab (self w') =
          (λ dom, {| tabId := tab_id tab; tabDomain := dom;
                     startTime := clock w + tabsLatency (browser w) |})
          <$> truthy_string (extractDomain URL_new url))).
Proof.
  intros w'. subst w'. unfold exec, completion.
  destruct (TimeTracker_new_run draft URL_new w) as (w' & -> & Hc & Hf & Hl & _ & Hd & Hlen).
  simpl. split_and!; try done.
  - intros Hnone. rewrite Hc. unfold initial_tab. by rewrite Hnone.
  - intros tab rest Hact. rewrite Hc. unfold initial_tab. rewrite Hact. split_and!.
    + intros ->. done.
    + intros ->. by destruct (tab_id tab =? 0).
    + intros url Hid ->. destruct (Z.eqb_spec (tab_id tab) 0); [done|].
      by destruct (truthy_string (extractDomain URL_new url)).
Qed.

Lemma constructor_tracks_the_active_tab_witness :
  currentTab (self (exec (TimeTracker_new Minimal sample_URL_new) (blank sample_browser ∅)))
  = Some {| tabId := 1; tabDomain := "example.com"; startTime := 0 |}.
Proof.
  destruct (constructor_tracks_the_active_tab Minimal sample_URL_new (blank sample_browser ∅))
    as (_ & _ & _ & _ & _ & _ & Htab).
  destruct (Htab {| tab_id := 1; tab_windowId := 1; tab_active := true;
                    tab_url := Some "https://example.com/index.html" |} [])
    as (_ & _ & Hopen).
  - vm_compute. reflexivity.
  - rewrite (Hopen "https://example.com/index.html").
    + vm_compute. reflexivity.
    + vm_compute. discriminate.
    + vm_compute. reflexivity.
Defined.

(** ** The popup *)

Lemma formatTime_minutes ms : ms / 1000 / 60 = ms / 60000.
Proof. rewrite Z.div_div by lia. done. Qed.

Lemma formatTime_hours ms : ms / 1000 / 60 / 60 = ms / 3600000.
Proof. rewrite !Z.div_div by lia. done. Qed.

(** X17. [formatTime] shows the largest unit only, rounded down: whole
    seconds below one minute, whole minutes below one hour, and from one hour
    on the hours followed by the minutes of the running hour, which are left
    out when they are zero. *)
Theorem formatTime_shows_largest_unit (ms : Z) :
  (0 ≤ ms < 60000 → formatTime ms = Number_toString (ms / 1000) +:+ "s") ∧
  (60000 ≤ ms < 3600000 → formatTime ms = Number_toString (ms / 60000) +:+ "m") ∧
  (3600000 ≤ ms → ms / 60000 mod 60 = 0 →
   formatTime ms = Number_toString (ms / 3600000) +:+ "h") ∧
  (3600000 ≤ ms → ms / 60000 mod 60 ≠ 0 →
   formatTime ms = Number_toString (ms / 3600000) +:+ "h " +:+
                   Number_toString (ms / 60000 mod 60) +:+ "m").
Proof.
  unfold formatTime. cbv zeta. rewrite formatTime_hours, formatTime_minutes.
  split_and!.
  - intros H.
    destruct (Z.ltb_spec 0 (ms / 3600000)); [exfalso; Z.to_euclidean_division_equations; lia|].
    destruct (Z.ltb_spec 0 (ms / 60000)); [exfalso; Z.to_euclidean_division_equations; lia|].
    done.
  - intros H.
    destruct (Z.ltb_spec 0 (ms / 3600000)); [exfalso; Z.to_euclidean_division_equations; lia|].
    destruct (Z.ltb_spec 0 (ms / 60000)); [done|exfalso; Z.to_euclidean_division_equations; lia].
  - intros H Hrem.
    destruct (Z.ltb_spec 0 (ms / 3600000)); [|exfalso; Z.to_euclidean_division_equations; lia].
    rewrite Hrem. done.
  - intros H Hrem.
    destruct (Z.ltb_spec 0 (ms / 3600000)); [|exfalso; Z.to_euclidean_division_equations; lia].
    destruct (Z.ltb_spec 0 (ms / 60000 mod 60)); [done|].
    exfalso. Z.to_euclidean_division_equations. lia.
Qed.

Lemma formatTime_shows_largest_unit_witness :
  formatTime 59999 = "59s" ∧ formatTime 3599999 = "59m" ∧
  formatTime 7200000 = "2h" ∧ formatTime 5400000 = "1h 30m".
Proof.
  split_and!.
  - rewrite (proj1 (formatTime_shows_largest_unit 59999)); [reflexivity|lia].
  - rewrite (proj1 (proj2 (formatTime_shows_largest_unit 3599999))); [reflexivity|lia].
  - rewrite (proj1 (proj2 (proj2 (formatTime_shows_largest_unit 7200000))));
      [reflexivity|lia|reflexivity].
  - rewrite (proj2 (proj2 (proj2 (formatTime_shows_largest_unit 5400000))));
      [reflexivity|lia|vm_compute; discriminate].
Defined.

(** X18. What [formatTime] does not show: two times with the same number of
    whole seconds are shown alike, and from one minute on so are two times
    with the same number of whole minutes.  The seconds of a time of a minute
    or more never appear. *)
Theorem formatTime_hides_smaller_units (a b : Z) :
  (a / 1000 = b / 1000 → formatTime a = formatTime b) ∧
  (60000 ≤ a → a / 60000 = b / 60000 → formatTime a = formatTime b).
Proof.
  split.
  - intros Hsec. unfold formatTime. cbv zeta. by rewrite Hsec.
  - intros Ha Hmin. unfold formatTime. cbv zeta.
    rewrite !formatTime_hours, !formatTime_minutes.
    assert (Hhours : a / 3600000 = b / 3600000).
    { rewrite <- (formatTime_hours a), <- (formatTime_hours b).
      by rewrite !formatTime_minutes, Hmin. }
    rewrite <- Hhours, <- Hmin.
    destruct (0 <? a / 3600000); [done|].
    destruct (Z.ltb_spec 0 (a / 60000)); [done|].
    exfalso. Z.to_euclidean_division_equations. lia.
Qed.

Lemma formatTime_hides_smaller_units_witness :
  formatTime 60000 = formatTime 119999 ∧ formatTime 60000 = "1m".
Proof.
  split; [|reflexivity].
  apply (proj2 (formatTime_hides_smaller_units 60000 119999)); [lia|reflexivity].
Defined.

Lemma ask_getTodayData_run draft w :
  ∃ l w', getTodayData w = (Normal l, w') ∧
          ask_getTodayData draft w = (Normal (Some l), w').
Proof.
  destruct (getTodayData_frame w) as (l & w' & Hrun & _).
  exists l, w'. split; [done|].
  unfold ask_getTodayData, onMessage. js_unfold. simpl. by rewrite Hrun.
Qed.

(** X19. The popup against the background script.  When one of its three
    elements is missing, [loadAndDisplayData] does nothing and asks nothing.
    Otherwise the loading line is hidden and the tracking state is untouched.
    With a working store and a day that has entries the list is shown, the
    no-data line hidden, and the list has one row for each stored domain, with
    the formatted stored time, in descending order of time.  With a day
    without entries, and just the same with a store that rejects the read, the
    no-data line is shown and the list hidden. *)
Theorem popup_lists_today_descending (draft : Draft) (doc : Document) (w : World) :
  let result := loadAndDisplayData draft doc w in
  let doc' := result.1.1 in
  let logged := result.1.2 in
  let w' := result.2 in
  let dailyData := default ∅ (local w !! today w) in
  (loadingEl doc = None ∨ domainListEl doc = None ∨ noDataEl doc = None →
   doc' = doc ∧ w' = w) ∧
  (is_Some (loadingEl doc) → is_Some (domainListEl doc) → is_Some (noDataEl doc) →
   logged = false ∧
   same_tracking w w' ∧
   display <$> loadingEl doc' = Some "none" ∧
   (storageGetFault (browser w) = None → dailyData ≠ ∅ →
    display <$> domainListEl doc' = Some "block" ∧
    display <$> noDataEl doc' = Some "none" ∧
    ∃ l, rows <$> domainListEl doc' = Some (row_of <$> l) ∧
         l ≡ₚ entries dailyData ∧
         StronglySorted (λ a b, timeSpent b ≤ timeSpent a) l) ∧
   (storageGetFault (browser w) = None ∧ dailyData = ∅ ∨
    is_Some (storageGetFault (browser w)) →
    display <$> domainListEl doc' = Some "none" ∧
    display <$> noDataEl doc' = Some "block")).
Proof.
  cbv zeta. unfold loadAndDisplayData.
  destruct (loadingEl doc) as [loading|] eqn:Hloading;
    [|split; [done|by intros [? ?]]].
  destruct (domainListEl doc) as [list|] eqn:Hlist;
    [|split; [done|by intros _ [? ?]]].
  destruct (noDataEl doc) as [noData|] eqn:HnoData;
    [|split; [done|by intros _ _ [? ?]]].
  destruct (ask_getTodayData_run draft w) as (l & w' & Hrun & ->).
  split; [by intros [?|[?|?]]|]. intros _ _ _.
  destruct (getTodayData_frame w) as (l0 & w0 & Hrun0 & Hs & _).
  rewrite Hrun in Hrun0. simplify_eq. unfold display_response. simpl.
  destruct l0 as [|x xs] eqn:Hl0; simpl.
  - rewrite Hloading, Hlist, HnoData. simpl. split_and!; try done.
    intros Hget Hne. exfalso.
    rewrite (getTodayData_read_ok w Hget) in Hrun. injection Hrun as Hsort _.
    pose proof (Array_sort_Permutation (entries (default ∅ (local w !! today w)))) as Hperm.
    rewrite Hsort in Hperm.
    symmetry in Hperm. apply Permutation_nil_r in Hperm. unfold entries in Hperm.
    apply fmap_nil_inv, map_to_list_empty_iff in Hperm. done.
  - unfold renderDomains. simpl. rewrite Hloading, Hlist, HnoData. simpl.
    split_and!; try done.
    + intros Hget Hne. split_and!; try done.
      rewrite (getTodayData_read_ok w Hget) in Hrun. injection Hrun as Hsort _.
      exists (x :: xs). split; [done|]. rewrite <- Hsort.
      split; [apply Array_sort_Permutation|apply Array_sort_descending].
    + intros [[Hget Hempty]|[e Hget]]; exfalso.
      * rewrite (getTodayData_read_ok w Hget), Hempty in Hrun. discriminate Hrun.
      * rewrite (getTodayData_read_fails w e Hget) in Hrun. discriminate Hrun.
Qed.

Lemma popup_lists_today_descending_witness :
  let w := exec (handleTabChange Instrumented sample_URL_new 1)
             (at_time 64000 (exec (handleTabChange Instrumented sample_URL_new 2)
                                  (at_time 2500 (started Instrumented)))) in
  (∃ l, rows <$> domainListEl (loadAndDisplayData Instrumented sample_document w).1.1
        = Some (row_of <$> l) ∧
        StronglySorted (λ a b, timeSpent b ≤ timeSpent a) l) ∧
  display <$> noDataEl (loadAndDisplayData Instrumented sample_document
                          (blank broken_storage_browser ∅)).1.1 = Some "block".
Proof.
  intros w. split.
  - destruct (popup_lists_today_descending Instrumented sample_document w) as [_ H].
    destruct H as (_ & _ & _ & Hlist & _); [by eexists ..|].
    destruct Hlist as (_ & _ & l & Hrows & _ & Hsorted).
    + vm_compute. reflexivity.
    + vm_compute. discriminate.
    + exists l. split; [exact Hrows|exact Hsorted].
  - destruct (popup_lists_today_descending Instrumented sample_document
                (blank broken_storage_browser ∅)) as [_ H].
    destruct H as (_ & _ & _ & _ & Hnone); [by eexists ..|].
    destruct Hnone as [_ Hnone]; [right; by eexists|]. exact Hnone.
Defined.

Example popup_rows_sample :
  let w := exec (handleTabChange Instrumented sample_URL_new 1)
             (at_time 64000 (exec (handleTabChange Instrumented sample_URL_new 2)
                                  (at_time 2500 (started Instrumented)))) in
  rows <$> domainListEl (loadAndDisplayData Instrumented sample_document w).1.1
  = Some [ {| domainName := "other.com"; domainTime := "1m" |};
           {| domainName := "example.com"; domainTime := "2s" |} ].
Proof. vm_compute. reflexivity. Qed.
